(** * Pikax: the batch id processor and the web-client login cascade

    A shallow embedding of [gui/lib/pikax/api/models.py] (the batch resolver
    [BaseIDProcessor]) and of [pikax/api/webclient.py] (the login cascade of
    [WebAPIClient]), with the properties of both. *)

From Stdlib Require Import ZArith Lia Ascii.
From stdpp Require Import gmap strings list fin_maps pretty.

Open Scope Z_scope.

(** ** Python values shared by the two modules *)

Module Py.

(** The exception classes the two files raise, catch or document.  The
    [exceptions] module of the package is not among the sources; its classes are
    taken as unrelated siblings, so that [except C] catches exactly the
    exceptions whose class is [C]. *)
Inductive exn_class : Type :=
| ArtworkError
| ReqException
| LoginError
| ProcessError
| KeyError
| ValueError
| AttributeError
| EOFError
| UnpicklingError
| OSError
| NotImplementedError.

#[global] Instance exn_class_eq_dec : EqDecision exn_class.
Proof. solve_decision. Defined.

(** An exception object: its class and [str(e)]. *)
Record exn : Type := Exn { exn_cls : exn_class; exn_str : string }.

Definition isinstance (e : exn) (c : exn_class) : bool :=
  bool_decide (exn_cls e = c).

(** What a call does: it returns a value or raises. *)
Inductive Result (A : Type) : Type :=
| Ret (a : A)
| Raise (e : exn).
Arguments Ret {A} a.
Arguments Raise {A} e.

Definition returned {A} (r : Result A) : bool :=
  match r with Ret _ => true | Raise _ => false end.

End Py.

(** ** gui/lib/pikax/api/models.py *)

Module Models.
Import Py.

(** What [util.log], [util.print_progress] and [util.print_done] are called
    with, in call order. *)
Inductive Output : Type :=
| Log (text : string)
| Progress (curr total : nat) (title : string)
| Done (msg : string).

(** The first two arguments of every [util.print_progress] call. *)
Fixpoint progress_calls (out : list Output) : list (nat * nat) :=
  match out with
  | [] => []
  | Progress curr total _ :: out' => (curr, total) :: progress_calls out'
  | _ :: out' => progress_calls out'
  end.

(** [Pool.imap_unordered] hands the results over in completion order.  The
    order is not fixed by the program: [picks] is the scheduler, its k-th entry
    choosing (modulo their number) which of the pending items completes k-th.
    [take_out k l] is the k-th element of [l] and the others. *)
Fixpoint take_out {A} (k : nat) (l : list A) {struct l} : option (A * list A) :=
  match l with
  | [] => None
  | x :: l' =>
      match k with
      | O => Some (x, l')
      | S k' =>
          match take_out k' l' with
          | Some (y, r) => Some (y, x :: r)
          | None => None
          end
      end
  end.

Fixpoint completion_order {A} (picks : list nat) (n : nat) (pending : list A)
  : list A :=
  match n with
  | O => []
  | S n' =>
      match take_out (hd 0%nat picks `mod` length pending)%nat pending with
      | Some (x, rest) => x :: completion_order (tl picks) n' rest
      | None => []
      end
  end.

Definition imap_unordered {A} (picks : list nat) (items : list A) : list A :=
  completion_order picks (length items) items.

Section Processor.

(** The attributes [config] sets on an artwork are opaque here. *)
Context {Vars : Type}.

(** class Artwork: [__init__] stores the id, then runs [config]. *)
Record Artwork : Type := mkArtwork { id : Z; vars : Vars }.

(** A class [cls : Type[Artwork]] is given by its [config], which sets the
    variables of the artwork of a given id or raises. *)
Variable config : Z -> Result Vars.

Definition cls (artwork_id : Z) : Result Artwork :=
  match config artwork_id with
  | Ret v => Ret (mkArtwork artwork_id v)
  | Raise e => Raise e
  end.

(** The message catalogue [texts] and [str.format] are external. *)
Variable texts_get : string -> string.
Variable format_finished : string -> nat -> nat -> nat -> string.

(** The two lists [process_item] appends to. *)
Record Lists : Type := mkLists { successes : list Artwork; fails : list Z }.

Definition process_item (itemid : Z) (st : Lists) : Result unit * Lists :=
  match cls itemid with
  | Ret a => (Ret tt, mkLists (successes st ++ [a]) (fails st))
  | Raise e =>
      if isinstance e ArtworkError
      then (Ret tt, mkLists (successes st) (fails st ++ [itemid]))
      else (Raise e, st)
  end.

(** The [for index, item_id in enumerate(...)] loop over the completions: an
    item whose [process_item] raised makes the iterator raise in the loop
    header, before the progress call of that round. *)
Fixpoint consume (total : nat) (index : nat) (completions : list Z) (st : Lists)
  : Result Lists * list Output :=
  match completions with
  | [] => (Ret st, [])
  | itemid :: rest =>
      match process_item itemid st with
      | (Ret _, st') =>
          let '(r, out) := consume total (S index) rest st' in
          (r, Progress (index + 1) total (texts_get "PROCESS_ID_TITLE") :: out)
      | (Raise e, _) => (Raise e, [])
      end
  end.

Definition _general_processor (picks : list nat) (item_ids : list Z)
  : Result (list Artwork * list Z) * list Output :=
  let total := length item_ids in
  let init := Log (texts_get "PROCESS_ID_INITIALIZING") in
  match consume total 0 (imap_unordered picks item_ids) (mkLists [] []) with
  | (Ret st, out) =>
      let msg := format_finished (texts_get "PROCESS_FINISHED_MESSAGE")
                   total (length (successes st)) (length (fails st)) in
      (Ret (successes st, fails st), init :: out ++ [Done msg])
  | (Raise e, out) => (Raise e, init :: out)
  end.

(** The constructor fails with [ArtworkError] only, on the ids of a batch. *)
Definition only_ArtworkError (item_ids : list Z) : Prop :=
  ∀ i e, i ∈ item_ids → cls i = Raise e → isinstance e ArtworkError = true.

(** Every artwork in [successes] is what the constructor returned for its id,
    and every id in [fails] is one the constructor raised on. *)
Definition sound (st : Lists) : Prop :=
  (∀ a, a ∈ successes st → cls (id a) = Ret a) ∧
  (∀ i, i ∈ fails st → ∃ e, cls i = Raise e).

Definition progress_run (total first n : nat) : list Output :=
  map (λ k, Progress k total (texts_get "PROCESS_ID_TITLE")) (seq first n).

(** *** The completion order is a rearrangement of the submitted items *)

Lemma take_out_perm {A} (k : nat) (l : list A) x r :
  take_out k l = Some (x, r) → l ≡ₚ x :: r.
Proof.
  revert k x r. induction l as [|y l IH]; intros k x r H; simpl in H.
  - discriminate.
  - destruct k as [|k].
    + injection H as <- <-. reflexivity.
    + destruct (take_out k l) as [[z r']|] eqn:E; [|discriminate].
      injection H as <- <-. rewrite (IH _ _ _ E). apply Permutation_swap.
Qed.

Lemma take_out_is_Some {A} (k : nat) (l : list A) :
  (k < length l)%nat → is_Some (take_out k l).
Proof.
  revert k. induction l as [|y l IH]; intros k Hk; simpl in *; [lia|].
  destruct k as [|k]; [eauto|].
  destruct (IH k ltac:(lia)) as [[z r] ->]. eauto.
Qed.

Lemma completion_order_perm {A} (picks : list nat) (n : nat) (l : list A) :
  length l = n → completion_order picks n l ≡ₚ l.
Proof.
  revert picks l. induction n as [|n IH]; intros picks l Hlen; simpl.
  - destruct l; [reflexivity | discriminate].
  - destruct (take_out_is_Some (hd 0%nat picks `mod` length l) l) as [[x r] E].
    { apply Nat.mod_upper_bound. lia. }
    rewrite E. pose proof (take_out_perm _ _ _ _ E) as Hp.
    rewrite Hp. constructor. apply IH.
    apply Permutation_length in Hp. simpl in Hp. lia.
Qed.

Lemma imap_unordered_perm {A} (picks : list nat) (items : list A) :
  imap_unordered picks items ≡ₚ items.
Proof. apply completion_order_perm. reflexivity. Qed.

Lemma take_out_elem {A} (x : A) (l : list A) :
  x ∈ l → ∃ k r, (k < length l)%nat ∧ take_out k l = Some (x, r).
Proof.
  induction l as [|y l IH]; intros Hin; [by apply elem_of_nil in Hin|].
  destruct (elem_of_cons l x y) as [Hcases _].
  destruct (Hcases Hin) as [->|Hl].
  - exists 0%nat, l. split; [simpl; lia | reflexivity].
  - destruct (IH Hl) as (k & r & Hk & Hr).
    exists (S k), (y :: r). split; [simpl; lia|]. simpl. by rewrite Hr.
Qed.

(** Every order of the items is the completion order under some scheduler. *)
Lemma imap_unordered_any_order {A} (items order : list A) :
  order ≡ₚ items → ∃ picks, imap_unordered picks items = order.
Proof.
  unfold imap_unordered. revert items.
  induction order as [|x order IH]; intros items Hperm.
  - apply Permutation_nil_l in Hperm. subst items. exists (@nil nat). reflexivity.
  - assert (Hin : x ∈ items) by (rewrite <- Hperm; left).
    destruct (take_out_elem x items Hin) as (k & r & Hk & Hr).
    pose proof (take_out_perm _ _ _ _ Hr) as Hitems.
    assert (Hrest : order ≡ₚ r).
    { apply (Permutation_cons_inv (a := x)). by rewrite Hperm, Hitems. }
    destruct (IH r Hrest) as (picks & Hpicks).
    exists (k :: picks).
    assert (Hlen : length items = S (length r)).
    { by rewrite (Permutation_length Hitems). }
    rewrite Hlen. simpl. rewrite Hlen, Nat.mod_small by lia.
    by rewrite Hr, Hpicks.
Qed.

(** *** The loop over the completions *)

Lemma progress_calls_run total first n :
  progress_calls (progress_run total first n)
  = map (λ k, (k, total)) (seq first n).
Proof.
  unfold progress_run. revert first.
  induction n as [|n IH]; intros first; simpl; [reflexivity|].
  f_equal. apply IH.
Qed.

Lemma consume_only_ArtworkError total index completions st :
  only_ArtworkError completions → sound st →
  ∃ st', consume total index completions st
         = (Ret st', progress_run total (S index) (length completions))
       ∧ sound st'
       ∧ map id (successes st') ++ fails st'
           ≡ₚ (map id (successes st) ++ fails st) ++ completions.
Proof.
  revert index st.
  induction completions as [|i rest IH]; intros index st Hok Hsound; simpl.
  - exists st. split; [reflexivity|]. split; [assumption|].
    by rewrite app_nil_r.
  - assert (Hrest : only_ArtworkError rest).
    { intros j e Hj. apply Hok. by right. }
    unfold process_item.
    destruct (cls i) as [a|e] eqn:Ecls.
    + assert (Hid : id a = i).
      { unfold cls in Ecls. destruct (config i); [|discriminate].
        by injection Ecls as <-. }
      destruct (IH (S index) (mkLists (successes st ++ [a]) (fails st)) Hrest)
        as (st' & -> & Hs' & Hp).
      { destruct Hsound as [Hs Hf]. split; simpl; [|exact Hf].
        intros b [Hb | Hb%list_elem_of_singleton]%elem_of_app; [by apply Hs|].
        subst b. by rewrite Hid. }
      exists st'. split; [|split; [exact Hs'|]].
      * unfold progress_run. simpl. by rewrite Nat.add_1_r.
      * rewrite Hp. simpl. rewrite map_app. simpl. rewrite Hid.
        rewrite <- !app_assoc. simpl.
        by rewrite (Permutation_middle (fails st) rest i).
    + rewrite (Hok i e ltac:(by left) Ecls).
      destruct (IH (S index) (mkLists (successes st) (fails st ++ [i])) Hrest)
        as (st' & -> & Hs' & Hp).
      { destruct Hsound as [Hs Hf]. split; simpl; [exact Hs|].
        intros j [Hj | Hj%list_elem_of_singleton]%elem_of_app; [by apply Hf|].
        subst j. eauto. }
      exists st'. split; [|split; [exact Hs'|]].
      * unfold progress_run. simpl. by rewrite Nat.add_1_r.
      * rewrite Hp. simpl. by rewrite <- !app_assoc.
Qed.


Lemma progress_calls_app out1 out2 :
  progress_calls (out1 ++ out2) = progress_calls out1 ++ progress_calls out2.
Proof.
  induction out1 as [|[]]; simpl; [done|done|by f_equal|done].
Qed.

(** *** The batch resolver *)


(** C2, as the code has it. When the constructor fails with ArtworkError only,
    the batch resolve returns after calling the progress reporter exactly
    [len(item_ids)] times, the completed count running through 1, 2, ...,
    [len(item_ids)] in this order and the total being [len(item_ids)] each
    time; for an empty list it returns two empty outputs after no progress
    call at all. *)
Theorem general_processor_progress (picks : list nat) (item_ids : list Z) :
  only_ArtworkError item_ids →
  returned (_general_processor picks item_ids).1 = true
  ∧ progress_calls (_general_processor picks item_ids).2
    = map (λ k, (k, length item_ids)) (seq 1 (length item_ids))
  ∧ (item_ids = [] →
     (_general_processor picks item_ids).1 = Ret ([], [])
     ∧ progress_calls (_general_processor picks item_ids).2 = []).
Proof.
  intros Hok.
  assert (Hrun : returned (_general_processor picks item_ids).1 = true
    ∧ progress_calls (_general_processor picks item_ids).2
      = map (λ k, (k, length item_ids)) (seq 1 (length item_ids))).
  { unfold _general_processor.
    pose proof (imap_unordered_perm picks item_ids) as Hperm.
    destruct (consume_only_ArtworkError (length item_ids) 0
                (imap_unordered picks item_ids) (mkLists [] []))
      as (st & -> & _ & _).
    { intros i e Hi. apply Hok. by rewrite <- Hperm. }
    { split; intros ? []%elem_of_nil. }
    split; [reflexivity|]. simpl.
    rewrite progress_calls_app, progress_calls_run. simpl.
    rewrite app_nil_r. by rewrite (Permutation_length Hperm). }
  split; [apply Hrun|]. split; [apply Hrun|].
  intros ->. split; reflexivity.
Qed.


(** *** More on the batch resolver *)

(** The artworks the constructor returns for the ids of a list, and the ids
    of the list it raises on, both in the order of the list. *)
Definition constructed (item_ids : list Z) : list Artwork :=
  omap (λ i, match cls i with Ret a => Some a | Raise _ => None end) item_ids.

Definition rejected (item_ids : list Z) : list Z :=
  filter (λ i, returned (cls i) = false) item_ids.

Lemma constructed_cons_Ret i a rest :
  cls i = Ret a → constructed (i :: rest) = a :: constructed rest.
Proof. intros H. unfold constructed. simpl. by rewrite H. Qed.

Lemma constructed_cons_Raise i e rest :
  cls i = Raise e → constructed (i :: rest) = constructed rest.
Proof. intros H. unfold constructed. simpl. by rewrite H. Qed.

Lemma rejected_cons_Ret i a rest :
  cls i = Ret a → rejected (i :: rest) = rejected rest.
Proof.
  intros H. unfold rejected. rewrite filter_cons_False; [done|]. by rewrite H.
Qed.

Lemma rejected_cons_Raise i e rest :
  cls i = Raise e → rejected (i :: rest) = i :: rejected rest.
Proof.
  intros H. unfold rejected. rewrite filter_cons_True; [done|]. by rewrite H.
Qed.

Lemma consume_exact total index completions st :
  only_ArtworkError completions →
  consume total index completions st
  = (Ret (mkLists (successes st ++ constructed completions)
                  (fails st ++ rejected completions)),
     progress_run total (S index) (length completions)).
Proof.
  revert index st.
  induction completions as [|i rest IH]; intros index st Hok.
  - unfold constructed, rejected. simpl. rewrite !app_nil_r. by destruct st.
  - assert (Hrest : only_ArtworkError rest).
    { intros j e Hj. apply Hok. by right. }
    cbn [consume]. unfold process_item. destruct (cls i) as [a|e] eqn:Ecls.
    + rewrite (IH _ _ Hrest). cbn [successes fails length].
      rewrite (constructed_cons_Ret _ _ _ Ecls), (rejected_cons_Ret _ _ _ Ecls).
      rewrite <- app_assoc. unfold progress_run. cbn [seq map app].
      by rewrite Nat.add_1_r.
    + rewrite (Hok i e ltac:(by left) Ecls). rewrite (IH _ _ Hrest).
      cbn [successes fails length].
      rewrite (constructed_cons_Raise _ _ _ Ecls),
        (rejected_cons_Raise _ _ _ Ecls).
      rewrite <- app_assoc. unfold progress_run. cbn [seq map app].
      by rewrite Nat.add_1_r.
Qed.


Lemma completion_order_in_order {A} (picks : list nat) (l : list A) :
  Forall (λ k, k = 0%nat) picks → completion_order picks (length l) l = l.
Proof.
  revert picks. induction l as [|x l IH]; intros picks Hpicks; [done|].
  change (completion_order picks (length (x :: l)) (x :: l))
    with (match take_out (hd 0%nat picks `mod` length (x :: l))%nat (x :: l)
          with
          | Some (y, rest) => y :: completion_order (tl picks) (length l) rest
          | None => []
          end).
  assert (Hhd : hd 0%nat picks = 0%nat).
  { destruct Hpicks as [|k picks Hk _]; [done | exact Hk]. }
  assert (Htl : Forall (λ k, k = 0%nat) (tl picks)).
  { destruct Hpicks as [|k picks _ Hrest]; [constructor | exact Hrest]. }
  rewrite Hhd, Nat.Div0.mod_0_l. cbn [take_out]. by rewrite (IH _ Htl).
Qed.


(** X2. When the items complete in the order they were submitted (every pick
    of the scheduler is the oldest pending item), the successes and the
    failures come out in input order. *)
Theorem general_processor_in_order (picks : list nat) (item_ids : list Z) :
  Forall (λ k, k = 0%nat) picks → only_ArtworkError item_ids →
  (_general_processor picks item_ids).1
  = Ret (constructed item_ids, rejected item_ids).
Proof.
  intros Hpicks Hok. unfold _general_processor, imap_unordered.
  rewrite (completion_order_in_order picks item_ids Hpicks).
  by rewrite consume_exact.
Qed.



End Processor.

Arguments Artwork Vars : clear implicits.
Arguments Lists Vars : clear implicits.

(** *** BaseIDProcessor.process *)

Section Dispatch.

Context {Vars : Type}.

(** [params.ProcessType] is not among the sources: its values, its two members
    named in [__init__] and its [is_valid] are parameters. *)
Context {ProcessType : Type} `{Countable ProcessType}.
Variables MANGA ILLUST : ProcessType.
Variable is_valid : ProcessType -> bool.
Variable texts_get : string -> string.
(** [str.format] with [process_type] and [process_class], and [repr]. *)
Variable format_type_error : string -> ProcessType -> string.
Variable repr : ProcessType -> string.

Definition Processor : Type := list Z -> Result (list (Artwork Vars) * list Z).

(** An instance: the two methods a subclass overrides, and the dictionary
    [__init__] builds from them. *)
Record BaseIDProcessor : Type := mkProcessor {
  process_illusts : Processor;
  process_mangas : Processor;
  type_to_function : gmap ProcessType Processor
}.

Definition BaseIDProcessor__init__ (illusts mangas : Processor)
  : BaseIDProcessor :=
  mkProcessor illusts mangas (<[ILLUST := illusts]> (<[MANGA := mangas]> ∅)).

(** The methods of the base class itself. *)
Definition not_implemented : Processor :=
  λ _, Raise (Exn NotImplementedError "").

Definition process (self : BaseIDProcessor) (ids : list Z)
    (process_type : ProcessType) : Result (list (Artwork Vars) * list Z) :=
  if negb (is_valid process_type) then
    Raise (Exn ProcessError
             (format_type_error (texts_get "PROCESS_TYPE_ERROR") process_type))
  else
    match type_to_function self !! process_type with
    | Some f => f ids
    | None => Raise (Exn KeyError (repr process_type))
    end.

(** C10. [process] raises ProcessError for a process type that fails
    [is_valid]; for one that passes [is_valid] and is neither MANGA nor ILLUST
    the dictionary lookup raises KeyError; MANGA and ILLUST are dispatched to
    the instance's methods. *)
Theorem process_dispatch
    (illusts mangas : Processor) (ids : list Z) (process_type : ProcessType) :
  let self := BaseIDProcessor__init__ illusts mangas in
  (is_valid process_type = false →
     ∃ msg, process self ids process_type = Raise (Exn ProcessError msg))
  ∧ (is_valid process_type = true →
     process_type ≠ MANGA → process_type ≠ ILLUST →
     process self ids process_type = Raise (Exn KeyError (repr process_type)))
  ∧ (is_valid process_type = true → process_type = ILLUST →
     process self ids process_type = illusts ids)
  ∧ (is_valid process_type = true → process_type = MANGA → MANGA ≠ ILLUST →
     process self ids process_type = mangas ids).
Proof.
  intros self. unfold process, self, BaseIDProcessor__init__. simpl.
  repeat split.
  - intros ->. simpl. eauto.
  - intros -> Hm Hi. simpl.
    by rewrite lookup_insert_ne, lookup_insert_ne, lookup_empty.
  - intros -> ->. simpl. by rewrite lookup_insert_eq.
  - intros -> -> Hne. simpl.
    by rewrite lookup_insert_ne, lookup_insert_eq.
Qed.

End Dispatch.

(** *** The batch resolver on examples *)

(** A class whose [config] fails with ArtworkError on the id 2, one whose
    [config] lets the ReqException of its docstring through on the id 2, and a
    message catalogue. *)
Definition example_config (artwork_id : Z) : Result unit :=
  if decide (artwork_id = 2)
  then Raise (Exn ArtworkError "Failed to config artwork")
  else Ret tt.

Definition example_req_config (artwork_id : Z) : Result unit :=
  if decide (artwork_id = 2)
  then Raise (Exn ReqException "request timed out")
  else Ret tt.

Definition example_texts (key : string) : string := key.
Definition example_format (template : string) (total successes fails : nat)
  : string := template.

(** The ids 1, 2, 3 with the constructor failing on 2, the third item
    completing first: the successes are the artworks 3 and 1, in completion
    order, and 2 is the failure. *)
Example general_processor_scenario_1 :
  _general_processor example_config example_texts example_format [2%nat]
    [1; 2; 3]
  = (Ret ([mkArtwork 3 tt; mkArtwork 1 tt], [2]),
     [Log "PROCESS_ID_INITIALIZING";
      Progress 1 3 "PROCESS_ID_TITLE"; Progress 2 3 "PROCESS_ID_TITLE";
      Progress 3 3 "PROCESS_ID_TITLE"; Done "PROCESS_FINISHED_MESSAGE"]).
Proof. reflexivity. Qed.

Lemma example_config_only_ArtworkError (item_ids : list Z) :
  only_ArtworkError example_config item_ids.
Proof.
  intros i e _. unfold cls, example_config.
  destruct (decide (i = 2)); [|done]. by intros [= <-].
Qed.


Lemma general_processor_progress_witness :
  only_ArtworkError example_config [1; 2; 3; 2]
  ∧ progress_calls
      (_general_processor example_config example_texts example_format
         [2%nat; 0%nat] [1; 2; 3; 2]).2
    = [(1, 4); (2, 4); (3, 4); (4, 4)]%nat.
Proof.
  split; [apply example_config_only_ArtworkError|].
  apply (general_processor_progress example_config example_texts
           example_format [2%nat; 0%nat] [1; 2; 3; 2]
           (example_config_only_ArtworkError _)).
Defined.

(** C2 as the specification states it fails: a constructor that raises
    ReqException on the only id of the batch makes the resolve raise before
    any progress call, so that the reporter is called 0 times for 1 id. *)
Lemma general_processor_progress_counterexample :
  let run :=
    _general_processor example_req_config example_texts example_format []
      [2] in
  run.1 = Raise (Exn ReqException "request timed out")
  ∧ progress_calls run.2 = []
  ∧ length (progress_calls run.2) ≠ length [2].
Proof. repeat split. by simpl. Qed.


(** Process types as strings, with a third valid one beside the two of the
    dictionary. *)
Definition example_is_valid (process_type : string) : bool :=
  bool_decide (process_type ∈ ["manga"; "illust"; "novel"]).

Lemma process_dispatch_witness :
  let self := BaseIDProcessor__init__ (Vars := unit) "manga" "illust"
                not_implemented not_implemented in
  (example_is_valid "gif" = false
   ∧ ∃ msg, process example_is_valid example_texts (λ t _, t) (λ t, t)
              self [1] "gif" = Raise (Exn ProcessError msg))
  ∧ (example_is_valid "novel" = true
     ∧ process example_is_valid example_texts (λ t _, t) (λ t, t)
         self [1] "novel" = Raise (Exn KeyError "novel")).
Proof.
  intros self.
  destruct (process_dispatch (Vars := unit) "manga" "illust"
              example_is_valid example_texts (λ t _, t) (λ t, t)
              not_implemented not_implemented [1] "gif") as (Hbad & _).
  destruct (process_dispatch (Vars := unit) "manga" "illust"
              example_is_valid example_texts (λ t _, t) (λ t, t)
              not_implemented not_implemented [1] "novel") as (_ & Hkey & _).
  split; (split; [reflexivity|]).
  - by apply Hbad.
  - by apply Hkey.
Defined.

(** *** More batches of the example classes *)


Lemma general_processor_in_order_witness :
  (Forall (λ k, k = 0%nat) [0%nat; 0%nat]
   ∧ only_ArtworkError example_config [1; 2; 3; 2])
  ∧ (_general_processor example_config example_texts example_format
       [0%nat; 0%nat] [1; 2; 3; 2]).1
    = Ret ([mkArtwork 1 tt; mkArtwork 3 tt], [2; 2]).
Proof.
  assert (Hpicks : Forall (λ k, k = 0%nat) [0%nat; 0%nat])
    by (repeat constructor).
  split; [split; [exact Hpicks | apply example_config_only_ArtworkError]|].
  apply (general_processor_in_order example_config example_texts
           example_format [0%nat; 0%nat] [1; 2; 3; 2] Hpicks
           (example_config_only_ArtworkError _)).
Defined.





End Models.

(** ** pikax/api/webclient.py *)

Module WebClient.
Import Py.

(** *** Python string methods used by the client *)

Definition dquote : ascii := Ascii.ascii_of_nat 34.
Definition newline : ascii := Ascii.ascii_of_nat 10.

(** [s.split(sep)] for a one-character separator. *)
Fixpoint split (sep : ascii) (s : string) : list string :=
  match s with
  | EmptyString => [EmptyString]
  | String c s' =>
      if decide (c = sep) then EmptyString :: split sep s'
      else match split sep s' with
           | [] => [String c EmptyString]
           | h :: t => String c h :: t
           end
  end.

(** [s.split(sep, 1)]: at most one split, at the first separator. *)
Fixpoint split1 (sep : ascii) (s : string) : list string :=
  match s with
  | EmptyString => [EmptyString]
  | String c s' =>
      if decide (c = sep) then [EmptyString; s']
      else match split1 sep s' with
           | [] => [String c EmptyString]
           | h :: t => String c h :: t
           end
  end.

(** A character of a string stands for the code point of its number, so the
    strings are those of code points below 256.  [str.isspace] is true there
    of the ASCII blanks (9 to 13 and 28 to 32), of the next-line control (133)
    and of the no-break space (160). *)
Definition isspace (c : ascii) : bool :=
  let n := Ascii.nat_of_ascii c in
  ((9 <=? n) && (n <=? 13) || (28 <=? n) && (n <=? 32)
   || (n =? 133) || (n =? 160))%nat.

(** [str.isascii] *)
Fixpoint isascii (s : string) : bool :=
  match s with
  | EmptyString => true
  | String c s' => (Ascii.nat_of_ascii c <? 128)%nat && isascii s'
  end.

Fixpoint lstrip (s : string) : string :=
  match s with
  | EmptyString => EmptyString
  | String c s' => if isspace c then lstrip s' else s
  end.

Definition strip (s : string) : string :=
  String.rev (lstrip (String.rev (lstrip s))).

(** [str.lower]: the capital letters below 256 are A to Z (65 to 90) and
    192 to 222 without the multiplication sign (215); the small letter of each
    is 32 further on. *)
Definition lower_char (c : ascii) : ascii :=
  let n := Ascii.nat_of_ascii c in
  if ((65 <=? n) && (n <=? 90)
      || (192 <=? n) && (n <=? 222) && negb (n =? 215))%nat
  then Ascii.ascii_of_nat (n + 32) else c.

Fixpoint lower (s : string) : string :=
  match s with
  | EmptyString => EmptyString
  | String c s' => String (lower_char c) (lower s')
  end.

(** [RequestsCookieJar.__setitem__] of the requests library, through [set]
    and [set_cookie]: a value that starts and ends with a double quote is
    stored as [value.replace(backslash quote, empty)], any other value as it
    is. *)
Definition backslash : ascii := Ascii.ascii_of_nat 92.

Definition startswith (c : ascii) (s : string) : bool :=
  match s with
  | EmptyString => false
  | String c' _ => bool_decide (c' = c)
  end.

Fixpoint endswith (c : ascii) (s : string) : bool :=
  match s with
  | EmptyString => false
  | String c' s' =>
      match s' with
      | EmptyString => bool_decide (c' = c)
      | String _ _ => endswith c s'
      end
  end.

Fixpoint remove_escaped_quotes (s : string) : string :=
  match s with
  | EmptyString => EmptyString
  | String a s' =>
      match s' with
      | EmptyString => s
      | String b s'' =>
          if bool_decide (a = backslash) && bool_decide (b = dquote)
          then remove_escaped_quotes s''
          else String a (remove_escaped_quotes s')
      end
  end.

Definition set_cookie_value (value : string) : string :=
  if startswith dquote value && endswith dquote value
  then remove_escaped_quotes value else value.

Definition RequestsCookieJar_setitem (name value : string)
    (jar : gmap string string) : gmap string string :=
  <[name := set_cookie_value value]> jar.

(** The [re.search] of [_get_postkey], as [group(1)] of the match or [None].
    The pattern is the text post_key, a double quote, a blank, the text value=,
    a double quote, a lazy group of characters other than a newline, and a
    double quote.  [strip_prefix p s] is what follows [p] at the start of [s];
    [shortest_to_quote s] is the shortest run of characters other than a
    newline that a double quote follows. *)
Fixpoint strip_prefix (p s : string) : option string :=
  match p, s with
  | EmptyString, _ => Some s
  | String a p', String b s' =>
      if decide (a = b) then strip_prefix p' s' else None
  | String _ _, EmptyString => None
  end.

Fixpoint shortest_to_quote (s : string) : option string :=
  match s with
  | EmptyString => None
  | String c s' =>
      if decide (c = dquote) then Some EmptyString
      else if decide (c = newline) then None
      else String c <$> shortest_to_quote s'
  end.

Definition post_key_pattern : string :=
  "post_key" +:+ String dquote " value=" +:+ String dquote EmptyString.

Fixpoint re_search_post_key (text : string) : option string :=
  match strip_prefix post_key_pattern text ≫= shortest_to_quote with
  | Some g => Some g
  | None =>
      match text with
      | EmptyString => None
      | String _ text' => re_search_post_key text'
      end
  end.

(** *** The world the client runs in *)

(** The methods whose entry is recorded. *)
Inductive Method : Type :=
| AccountClient_login_m
| CookiesClient_login_m
| local_cookies_login_m
| user_cookies_login_m
| DefaultAPIClient_init_m.

#[global] Instance Method_eq_dec : EqDecision Method.
Proof. solve_decision. Defined.

(** A call of [util.req]. *)
Record Request : Type := mkRequest {
  req_type : string;
  req_url : string;
  req_data : list (string * string);
  req_params : list (string * string)
}.

(** What a run does, in order: the methods entered, and the calls that reach
    outside the process. *)
Inductive Event : Type :=
| Call (m : Method)                     (* a login method is entered *)
| Req (r : Request)                     (* util.req *)
| Checked (jar : gmap string string) (is_logged_in : bool)
                                        (* _check_is_logged returns, for this jar *)
| Save (jar : gmap string string)       (* pickle.dump of the session cookies *)
| Remove (path : string)                (* os.remove *)
| Input (prompt : string)               (* input *)
| Print (text : string)                 (* print *)
| LogMsg (text : string).               (* util.log *)

(** The result of a run: a value, an exception, or no result within the
    rounds allotted to the [while True] loop. *)
Inductive Outcome (A : Type) : Type :=
| Returns (a : A)
| Raises (e : exn)
| OutOfFuel.
Arguments Returns {A} a.
Arguments Raises {A} e.
Arguments OutOfFuel {A}.

Definition of_result {A} (r : Result A) : Outcome A :=
  match r with Ret a => Returns a | Raise e => Raises e end.

Section Client.

(** The remote service, with a state of its own. *)
Context {Srv : Type}.

(** State of the process and of what it talks to: the service, the cookie jar
    of [self._session], the local files (by path), and the lines the user is
    still to type. *)
Record World : Type := mkWorld {
  remote : Srv;
  cookies : gmap string string;
  files : gmap string string;
  stdin : list string
}.

Definition with_cookies (jar : gmap string string) (w : World) : World :=
  mkWorld (remote w) jar (files w) (stdin w).
Definition with_files (fs : gmap string string) (w : World) : World :=
  mkWorld (remote w) (cookies w) fs (stdin w).
Definition with_stdin (lines : list string) (w : World) : World :=
  mkWorld (remote w) (cookies w) (files w) lines.

(** The collaborators that are not among the sources.  [util_req] sends a
    request with the session's cookie jar: the service moves on, the response
    may change the jar, and the body of the response comes back unless the
    call raises.  [is_logged_in] is [.json()['body']['user_status']['is_logged_in']]
    of a response body.  [pickle_dumps] and [pickle_load] are the serialisation
    of a cookie jar. *)
Variable util_req :
  Request → Srv → gmap string string → Srv * gmap string string * Result string.
Variable is_logged_in : string → Result bool.
Variable pickle_dumps : gmap string string → string.
Variable pickle_load : string → Result (gmap string string).
Variable new_session : gmap string string.
Variable COOKIES_FILE : string.
Variable DefaultAPIClient_init : gmap string string → Result unit.

(** *** A state and exception monad that records events *)

Definition M (A : Type) : Type := World → Outcome A * World * list Event.

Definition ret {A} (a : A) : M A := λ w, (Returns a, w, []).
Definition raise {A} (e : exn) : M A := λ w, (Raises e, w, []).
Definition out_of_fuel {A} : M A := λ w, (OutOfFuel, w, []).

Definition bind {A B} (m : M A) (f : A → M B) : M B := λ w,
  match m w with
  | (Returns a, w', ev) => let '(r, w'', ev') := f a w' in (r, w'', ev ++ ev')
  | (Raises e, w', ev) => (Raises e, w', ev)
  | (OutOfFuel, w', ev) => (OutOfFuel, w', ev)
  end.

(** [try: m except (c1, ..., cn) as e: h e] *)
Definition try_except {A} (m : M A) (cs : list exn_class) (h : exn → M A)
  : M A := λ w,
  match m w with
  | (Raises e, w', ev) =>
      if bool_decide (exn_cls e ∈ cs)
      then let '(r, w'', ev') := h e w' in (r, w'', ev ++ ev')
      else (Raises e, w', ev)
  | r => r
  end.

#[global] Instance M_ret : MRet M := @ret.
#[global] Instance M_bind : MBind M := λ A B f m, bind m f.

Definition emit (e : Event) : M unit := λ w, (Returns tt, w, [e]).
Definition get_world : M World := λ w, (Returns w, w, []).
Definition put_world (w' : World) : M unit := λ _, (Returns tt, w', []).
Definition lift {A} (r : Result A) : M A := λ w, (of_result r, w, []).

Fixpoint for_each {A} (l : list A) (body : A → M unit) : M unit :=
  match l with
  | [] => ret tt
  | x :: l' => body x;; for_each l' body
  end.

Definition result {A} (x : Outcome A * World * list Event) : Outcome A := x.1.1.
Definition world {A} (x : Outcome A * World * list Event) : World := x.1.2.
Definition events {A} (x : Outcome A * World * list Event) : list Event := x.2.

(** *** The calls that reach outside the process *)

Definition util_log (text : string) : M unit := emit (LogMsg text).
Definition print (text : string) : M unit := emit (Print text).

(** [input(prompt)] reads the next line, and raises EOFError at the end of the
    input. *)
Definition input (prompt : string) : M string := λ w,
  match stdin w with
  | [] => (Raises (Exn EOFError "EOF when reading a line"), w, [Input prompt])
  | line :: rest => (Returns line, with_stdin rest w, [Input prompt])
  end.

Definition req (r : Request) : M string := λ w,
  let '(srv, jar, body) := util_req r (remote w) (cookies w) in
  (of_result body, mkWorld srv jar (files w) (stdin w), [Req r]).

Definition os_path_exists (path : string) : M bool := λ w,
  (Returns (bool_decide (is_Some (files w !! path))), w, []).

(** Only regular files are modelled, so [isfile] is [exists]. *)
Definition os_path_isfile (path : string) : M bool := os_path_exists path.

Definition os_remove (path : string) : M unit := λ w,
  match files w !! path with
  | Some _ => (Returns tt, with_files (delete path (files w)) w, [Remove path])
  | None => (Raises (Exn OSError "No such file or directory"), w, [])
  end.

(** [with open(path, 'rb') as f: pickle.load(f)] *)
Definition load_pickle (path : string) : M (gmap string string) := λ w,
  match files w !! path with
  | Some content => (of_result (pickle_load content), w, [])
  | None => (Raises (Exn OSError "No such file or directory"), w, [])
  end.

(** [with open(path, 'wb') as file: pickle.dump(jar, file)], where the file
    can be written.  (A write that fails raises OSError, which no handler of
    the client catches; the runs of the model are those in which the cookies
    file can be written.) *)
Definition dump_pickle (jar : gmap string string) (path : string) : M unit :=
  λ w, (Returns tt, with_files (<[path := pickle_dumps jar]> (files w)) w,
        [Save jar]).

(** *** class BaseClient *)

Definition _login_check_url : string :=
  "https://www.pixiv.net/touch/ajax/user/self/status".

Definition BaseClient__init__ : M unit := λ w,
  (Returns tt, with_cookies new_session w, []).

Definition _check_is_logged : M bool :=
  status ← req (mkRequest "get" _login_check_url [] []);
  logged ← lift (is_logged_in status);
  w ← get_world;
  emit (Checked (cookies w) logged);;
  mret logged.

Definition _save_cookies : M unit :=
  isfile ← os_path_isfile COOKIES_FILE;
  (if isfile : bool
   then util_log ("Rewriting local cookie file: " +:+ COOKIES_FILE)
   else util_log ("Saving cookies to local file: " +:+ COOKIES_FILE));;
  w ← get_world;
  dump_pickle (cookies w) COOKIES_FILE.

(** *** class AccountClient *)

Definition _login_url : string := "https://accounts.pixiv.net/api/login?".
Definition _post_key_url : string := "https://accounts.pixiv.net/login?".

Definition _get_postkey : M string :=
  try_except
    (pixiv_login_page ← req (mkRequest "get" _post_key_url [] []);
     match re_search_post_key pixiv_login_page with
     | Some post_key =>
         util_log ("Post key successfully retrieved: " +:+ post_key);;
         mret post_key
     | None =>
         raise (Exn AttributeError
                  "'NoneType' object has no attribute 'group'")
     end)
    [ReqException; AttributeError]
    (λ e, raise (Exn LoginError ("Failed to find post key: " +:+ exn_str e))).

Definition AccountClient_login (username password : string) : M unit :=
  emit (Call AccountClient_login_m);;
  postkey ← _get_postkey;
  let data := [("password", password); ("pixiv_id", username);
               ("post_key", postkey)] in
  let login_params := [("lang", "en")] in
  util_log "Sending requests to attempt login ...";;
  try_except
    (req (mkRequest "post" _login_url data login_params);; mret tt)
    [ReqException]
    (λ e, raise (Exn LoginError
                   ("Failed to send login request: " +:+ exn_str e)));;
  util_log "Login request sent to Pixiv";;
  logged ← _check_is_logged;
  if logged : bool then _save_cookies
  else raise (Exn LoginError "Login Request is not accepted").

(** *** class CookiesClient *)

Definition _local_cookies_login : M unit :=
  emit (Call local_cookies_login_m);;
  found ← os_path_exists COOKIES_FILE;
  if negb found then raise (Exn LoginError "Local Cookies file not found")
  else
    util_log ("Cookie file found: " +:+ COOKIES_FILE
              +:+ ", attempt to login with local cookie");;
    (* the [try] block yields [true] where the source returns from it *)
    done ← try_except
      (local_cookies ← load_pickle COOKIES_FILE;
       w ← get_world;
       put_world (with_cookies local_cookies w);;
       logged ← _check_is_logged;
       if logged : bool then
         util_log "Logged in successfully with local cookies";;
         mret true
       else
         os_remove COOKIES_FILE;;
         util_log "Removed outdated cookies";;
         mret false)
      [UnpicklingError]
      (λ e, os_remove COOKIES_FILE;;
            util_log ("Removed corrupted cookies file, message: "
                      +:+ exn_str e);;
            mret false);
    if done : bool then mret tt
    else raise (Exn LoginError "Login with cookies failed").

Definition _change_to_new_cookies (user_cookies : string) : M unit :=
  (* remove old cookies *)
  w ← get_world;
  for_each (map_to_list (cookies w)).*1 (λ old_cookie,
    w ← get_world;
    put_world (with_cookies (delete old_cookie (cookies w)) w));;
  (* add new cookies *)
  try_except
    (for_each (split ";" user_cookies) (λ new_cookie,
       match split1 "=" new_cookie with
       | [name; value] =>
           w ← get_world;
           put_world
             (with_cookies (RequestsCookieJar_setitem name value (cookies w)) w)
       | _ =>
           raise (Exn ValueError
                    "not enough values to unpack (expected 2, got 1)")
       end))
    [ValueError]
    (λ e, raise (Exn LoginError
                   ("Cookies given is invalid, please try again | "
                    +:+ exn_str e))).

(** How a round of the [while True] loop ends. *)
Inductive Flow : Type := Continue | Break | Return.

Definition user_cookies_round : M Flow :=
  line ← input " [=] Please select an option:";
  let answer := lower (strip line) in
  if bool_decide (answer ∈ ["n"; "no"]) then mret Break
  else if negb (bool_decide (answer ∈ ["y"; "yes"])) then
    print "Please enter your answer as case-insensitive 'y' or 'n' or 'yes' or 'no'";;
    mret Continue
  else
    cookies ← input
      (" [=] Please enter your cookies here, just php session id will work,"
       +:+ String newline " [=] e.g. PHPSESSIONID=1234567890:");
    try_except
      (_change_to_new_cookies cookies;;
       logged ← _check_is_logged;
       if logged : bool then _save_cookies;; mret Return
       else
         util_log "Failed login with cookies entered, would you like to try again? [y/n]";;
         mret Continue)
      [LoginError]
      (λ e, util_log ("cookies entered is invalid: " +:+ exn_str e);;
            util_log "would you like to try again? [y/n]";;
            mret Continue).

(** The loop, for at most [fuel] rounds. *)
Fixpoint while_True (fuel : nat) (round : M Flow) : M Flow :=
  match fuel with
  | O => out_of_fuel
  | S fuel' =>
      flow ← round;
      match flow with
      | Continue => while_True fuel' round
      | _ => mret flow
      end
  end.

(** Every round reads a line or leaves the loop, so one round more than there
    are lines to read is enough (see [user_cookies_loop_fuel]). *)
Definition _user_cookies_login : M unit :=
  emit (Call user_cookies_login_m);;
  util_log
    ("Login with local cookies failed, would you like to provide a new cookies?"
     +:+ String newline " [y] Yesss!"
     +:+ String newline
       " [n] Noooo! (Attempt alternate login with username and password)");;
  w ← get_world;
  flow ← while_True (S (length (stdin w))) user_cookies_round;
  match flow with
  | Return => mret tt
  | _ => (* user enter cookies failed *)
      raise (Exn LoginError "Failed login with user cookies")
  end.

Definition CookiesClient_login : M unit :=
  emit (Call CookiesClient_login_m);;
  try_except _local_cookies_login [LoginError] (λ _,
    try_except _user_cookies_login [LoginError] (λ _,
      raise (Exn LoginError "Cookies Login failed"))).

(** *** class WebAPIClient *)

Definition DefaultAPIClient__init__ : M unit :=
  emit (Call DefaultAPIClient_init_m);;
  w ← get_world;
  lift (DefaultAPIClient_init (cookies w)).

Definition WebAPIClient__init__ (username password : string) : M unit :=
  BaseClient__init__;;
  try_except (AccountClient_login username password) [LoginError] (λ _,
    try_except CookiesClient_login [LoginError] (λ _,
      raise (Exn LoginError "Web client login failed")));;
  DefaultAPIClient__init__.

(** *** Reading a run's events *)

Definition calls (ev : list Event) : list Method :=
  omap (λ e, match e with Call m => Some m | _ => None end) ev.

Definition saves (ev : list Event) : list (gmap string string) :=
  omap (λ e, match e with Save jar => Some jar | _ => None end) ev.

Definition prompts (ev : list Event) : list string :=
  omap (λ e, match e with Input p => Some p | _ => None end) ev.

(** The jar the service has accepted, if it has and nothing but log lines and
    saves happened since: [_check_is_logged] returning true sets it, a log
    line or a save keeps it, any other event forgets it. *)
Definition verify_step (accepted : option (gmap string string)) (e : Event)
  : option (gmap string string) :=
  match e with
  | Checked jar true => Some jar
  | LogMsg _ | Save _ => accepted
  | _ => None
  end.

Definition verified_after (accepted : option (gmap string string))
    (ev : list Event) : option (gmap string string) :=
  foldl verify_step accepted ev.

(** Every save writes the jar the service has just accepted. *)
Fixpoint saves_verified (accepted : option (gmap string string))
    (ev : list Event) : bool :=
  match ev with
  | [] => true
  | e :: ev' =>
      match e with
      | Save jar => bool_decide (accepted = Some jar)
      | _ => true
      end && saves_verified (verify_step accepted e) ev'
  end.

(** The strategies of the cascade, and those a run attempted, in order. *)
Inductive Strategy : Type :=
| DirectCredentials
| StoredSession
| InteractiveSession.

Definition attempted (ev : list Event) : list Strategy :=
  omap (λ m, match m with
             | AccountClient_login_m => Some DirectCredentials
             | local_cookies_login_m => Some StoredSession
             | user_cookies_login_m => Some InteractiveSession
             | _ => None
             end) (calls ev).

(** The jar [_change_to_new_cookies] builds: the entries are set one after the
    other, up to the first one without an equals sign. *)
Fixpoint set_entries (entries : list string) (jar : gmap string string)
  : bool * gmap string string :=
  match entries with
  | [] => (true, jar)
  | entry :: rest =>
      match split1 "=" entry with
      | [name; value] =>
          set_entries rest (RequestsCookieJar_setitem name value jar)
      | _ => (false, jar)
      end
  end.

(** *** The exceptions of the cascade, and what its runs are required to be *)

Definition unpack_error : exn :=
  Exn ValueError "not enough values to unpack (expected 2, got 1)".

Definition invalid_cookies : exn :=
  Exn LoginError
    ("Cookies given is invalid, please try again | " +:+ exn_str unpack_error).

(** A run that ends, saves only if it returns, writes with every save the jar
    the service has just accepted, and, when it returns, leaves in the session
    the jar the service has accepted. *)
Record sound_run {A} (good : A) (x : Outcome A * World * list Event)
  : Prop := {
  run_ends : result x ≠ OutOfFuel;
  run_saves : result x ≠ Returns good → saves (events x) = [];
  run_saves_verified : ∀ acc, saves_verified acc (events x) = true;
  run_verified : result x = Returns good →
    ∀ acc, verified_after acc (events x) = Some (cookies (world x))
}.

(** A strategy entered through method [m] enters no other method. *)
Definition strategy_run (m : Method) (x : Outcome unit * World * list Event)
  : Prop :=
  calls (events x) = [m] ∧ sound_run tt x.

Definition cookies_failed : exn := Exn LoginError "Cookies Login failed".
Definition web_client_failed : exn := Exn LoginError "Web client login failed".

(** The ways through [CookiesClient._login], by what its two strategies do. *)
Inductive cookies_path (w : World) : Outcome unit * World * list Event → Prop :=
| cookies_local w1 ev1 :
    _local_cookies_login w = (Returns tt, w1, ev1) →
    cookies_path w (Returns tt, w1, Call CookiesClient_login_m :: ev1)
| cookies_local_escapes e w1 ev1 :
    _local_cookies_login w = (Raises e, w1, ev1) →
    exn_cls e ≠ LoginError →
    cookies_path w (Raises e, w1, Call CookiesClient_login_m :: ev1)
| cookies_user e w1 ev1 w2 ev2 :
    _local_cookies_login w = (Raises e, w1, ev1) →
    exn_cls e = LoginError →
    _user_cookies_login w1 = (Returns tt, w2, ev2) →
    cookies_path w (Returns tt, w2, Call CookiesClient_login_m :: ev1 ++ ev2)
| cookies_user_escapes e w1 ev1 e' w2 ev2 :
    _local_cookies_login w = (Raises e, w1, ev1) →
    exn_cls e = LoginError →
    _user_cookies_login w1 = (Raises e', w2, ev2) →
    exn_cls e' ≠ LoginError →
    cookies_path w (Raises e', w2, Call CookiesClient_login_m :: ev1 ++ ev2)
| cookies_both_fail e w1 ev1 e' w2 ev2 :
    _local_cookies_login w = (Raises e, w1, ev1) →
    exn_cls e = LoginError →
    _user_cookies_login w1 = (Raises e', w2, ev2) →
    exn_cls e' = LoginError →
    cookies_path w
      (Raises cookies_failed, w2, Call CookiesClient_login_m :: ev1 ++ ev2).

(** The ways through the [try] statement of [WebAPIClient.__init__], run in
    the world [w0] that [super().__init__()] leaves. *)
Inductive login_path (username password : string) (w0 : World)
  : Outcome unit * World * list Event → Prop :=
| login_account w1 ev1 :
    AccountClient_login username password w0 = (Returns tt, w1, ev1) →
    login_path username password w0 (Returns tt, w1, ev1)
| login_account_escapes e w1 ev1 :
    AccountClient_login username password w0 = (Raises e, w1, ev1) →
    exn_cls e ≠ LoginError →
    login_path username password w0 (Raises e, w1, ev1)
| login_cookies e w1 ev1 w2 ev2 :
    AccountClient_login username password w0 = (Raises e, w1, ev1) →
    exn_cls e = LoginError →
    CookiesClient_login w1 = (Returns tt, w2, ev2) →
    login_path username password w0 (Returns tt, w2, ev1 ++ ev2)
| login_cookies_escapes e w1 ev1 e' w2 ev2 :
    AccountClient_login username password w0 = (Raises e, w1, ev1) →
    exn_cls e = LoginError →
    CookiesClient_login w1 = (Raises e', w2, ev2) →
    exn_cls e' ≠ LoginError →
    login_path username password w0 (Raises e', w2, ev1 ++ ev2)
| login_all_fail e w1 ev1 e' w2 ev2 :
    AccountClient_login username password w0 = (Raises e, w1, ev1) →
    exn_cls e = LoginError →
    CookiesClient_login w1 = (Raises e', w2, ev2) →
    exn_cls e' = LoginError →
    login_path username password w0 (Raises web_client_failed, w2, ev1 ++ ev2).

(** [WebAPIClient.__init__] follows one of these ways, and goes on to
    [DefaultAPIClient.__init__] exactly when the [try] statement returns. *)
Definition after_login (x : Outcome unit * World * list Event)
  : Outcome unit * World * list Event :=
  match result x with
  | Returns _ =>
      (of_result (DefaultAPIClient_init (cookies (world x))), world x,
       events x ++ [Call DefaultAPIClient_init_m])
  | _ => x
  end.

(** [try: m except LoginError: raise composite], on the result of [m]. *)
Definition except_LoginError (composite : exn) (r : Outcome unit)
  : Outcome unit :=
  match r with
  | Raises e =>
      if bool_decide (exn_cls e = LoginError) then Raises composite else r
  | _ => r
  end.

Definition fails_with_LoginError {A} (r : Outcome A) : bool :=
  match r with
  | Raises e => bool_decide (exn_cls e = LoginError)
  | _ => false
  end.

(** The authenticator as the specification words it (4.2, 4.3), not as the
    code has it; it is there to be compared with [WebAPIClient.__init__].  An
    attempt of a strategy yields a session or fails, whatever the fault.  The
    caller of [login] passes the strategies in the order to try them; the
    first success ends the cascade with its session, and when all have failed
    the result is the composite failure, here [None].  The result comes with
    the strategies tried. *)
Definition attempt (username password : string) (s : Strategy) (w : World)
  : option (gmap string string) * World :=
  let x := match s with
           | DirectCredentials => AccountClient_login username password w
           | StoredSession => _local_cookies_login w
           | InteractiveSession => _user_cookies_login w
           end in
  (match result x with
   | Returns _ => Some (cookies (world x))
   | _ => None
   end, world x).

Fixpoint Authenticator_login_as_specified (username password : string)
    (strategies : list Strategy) (w : World)
  : list Strategy * option (gmap string string) :=
  match strategies with
  | [] => ([], None)
  | s :: rest =>
      match attempt username password s w with
      | (Some session, _) => ([s], Some session)
      | (None, w') =>
          let '(tried, r) :=
            Authenticator_login_as_specified username password rest w' in
          (s :: tried, r)
      end
  end.

Definition cookies_login_failed : exn :=
  Exn LoginError "Login with cookies failed".
Definition cookies_not_found : exn :=
  Exn LoginError "Local Cookies file not found".

Fixpoint contains (c : ascii) (s : string) : bool :=
  match s with
  | EmptyString => false
  | String c' s' => bool_decide (c' = c) || contains c s'
  end.

(** *** Unfolding the monad *)

Lemma bind_run {A B} (m : M A) (f : A → M B) (w : World) :
  (m ≫= f) w
  = match m w with
    | (Returns a, w', ev) => let '(r, w'', ev') := f a w' in (r, w'', ev ++ ev')
    | (Raises e, w', ev) => (Raises e, w', ev)
    | (OutOfFuel, w', ev) => (OutOfFuel, w', ev)
    end.
Proof. reflexivity. Qed.

Lemma emit_bind_run {B} (e : Event) (k : M B) (w : World) :
  (emit e;; k) w = let '(r, w', ev) := k w in (r, w', e :: ev).
Proof. rewrite bind_run. simpl. by destruct (k w) as [[r w'] ev]. Qed.

Ltac unfold_M :=
  unfold mbind, M_bind, mret, M_ret, bind, ret, raise, try_except, emit,
    get_world, put_world, lift, util_log, print, out_of_fuel in *.

(** *** _change_to_new_cookies *)

Lemma delete_all_lookup (l : list string) (jar : gmap string string) i :
  foldl (λ j k, delete k j) jar l !! i
  = if decide (i ∈ l) then None else jar !! i.
Proof.
  revert jar. induction l as [|k l IH]; intros jar; simpl.
  - destruct (decide (i ∈ [])) as [[]%elem_of_nil|]; done.
  - rewrite IH.
    destruct (decide (i ∈ l)) as [Hl|Hl], (decide (i ∈ k :: l)) as [Hkl|Hkl];
      try done.
    + exfalso. apply Hkl. by right.
    + apply elem_of_cons in Hkl as [->|?]; [|done]. apply lookup_delete_eq.
    + apply lookup_delete_ne. intros ->. apply Hkl. by left.
Qed.

Lemma delete_all_keys (jar : gmap string string) :
  foldl (λ j k, delete k j) jar (map_to_list jar).*1 = ∅.
Proof.
  apply map_eq. intros i. rewrite delete_all_lookup, lookup_empty.
  destruct (decide _) as [|Hnot]; [done|].
  destruct (jar !! i) as [v|] eqn:E; [|done].
  exfalso. apply Hnot. apply list_elem_of_fmap. exists (i, v).
  split; [done|]. by apply elem_of_map_to_list.
Qed.

Lemma for_each_delete (l : list string) (w : World) :
  for_each l (λ old_cookie,
    w ← get_world;
    put_world (with_cookies (delete old_cookie (cookies w)) w)) w
  = (Returns tt, with_cookies (foldl (λ j k, delete k j) (cookies w) l) w, []).
Proof.
  revert w. induction l as [|k l IH]; intros w; simpl.
  - by destruct w.
  - rewrite bind_run. unfold_M. simpl. rewrite IH. by destruct w.
Qed.

Lemma for_each_set (entries : list string) (w : World) :
  for_each entries (λ new_cookie,
    match split1 "=" new_cookie with
    | [name; value] =>
        w ← get_world;
        put_world
          (with_cookies (RequestsCookieJar_setitem name value (cookies w)) w)
    | _ => raise unpack_error
    end) w
  = (if (set_entries entries (cookies w)).1 then Returns tt
     else Raises unpack_error,
     with_cookies (set_entries entries (cookies w)).2 w, []).
Proof.
  revert w. induction entries as [|entry rest IH]; intros w; simpl.
  - by destruct w.
  - rewrite bind_run.
    destruct (split1 "=" entry) as [|name [|value [|]]]; unfold_M; simpl;
      try by destruct w.
    rewrite IH. by destruct w.
Qed.

(** What [_change_to_new_cookies] does: whatever the jar held before, it holds
    afterwards the entries set up to the first malformed one, and nothing
    else; a malformed entry makes the call raise LoginError. *)
Lemma change_to_new_cookies_run (user_cookies : string) (w : World) :
  _change_to_new_cookies user_cookies w
  = (if (set_entries (split ";" user_cookies) ∅).1 then Returns tt
     else Raises invalid_cookies,
     with_cookies (set_entries (split ";" user_cookies) ∅).2 w, []).
Proof.
  unfold _change_to_new_cookies. rewrite bind_run. unfold get_world at 1.
  rewrite bind_run, for_each_delete, delete_all_keys.
  unfold try_except. fold unpack_error. rewrite for_each_set. simpl.
  destruct (set_entries (split ";" user_cookies) ∅) as [[] jar]; simpl.
  - by destruct w.
  - by destruct w.
Qed.

(** *** What a strategy's run looks like *)

Lemma verified_after_app acc ev1 ev2 :
  verified_after acc (ev1 ++ ev2) = verified_after (verified_after acc ev1) ev2.
Proof. apply foldl_app. Qed.

Lemma saves_verified_app acc ev1 ev2 :
  saves_verified acc (ev1 ++ ev2)
  = saves_verified acc ev1 && saves_verified (verified_after acc ev1) ev2.
Proof.
  revert acc. induction ev1 as [|e ev1 IH]; intros acc; simpl; [done|].
  rewrite IH. by rewrite andb_assoc.
Qed.

Lemma calls_app ev1 ev2 : calls (ev1 ++ ev2) = calls ev1 ++ calls ev2.
Proof. apply omap_app. Qed.

Lemma saves_app ev1 ev2 : saves (ev1 ++ ev2) = saves ev1 ++ saves ev2.
Proof. apply omap_app. Qed.

Lemma prompts_app ev1 ev2 : prompts (ev1 ++ ev2) = prompts ev1 ++ prompts ev2.
Proof. apply omap_app. Qed.

Lemma sound_run_after {A B} (good1 : A) (good2 : B) o1 w1 ev1 r2 w2 ev2 :
  sound_run good1 (o1, w1, ev1) → o1 ≠ Returns good1 →
  sound_run good2 (r2, w2, ev2) →
  sound_run good2 (r2, w2, ev1 ++ ev2).
Proof.
  intros [_ Hs1 Hsv1 _] Hne [He2 Hs2 Hsv2 Hv2].
  unfold result, world, events in *. simpl in *.
  split; unfold result, world, events; simpl.
  - done.
  - intros Hr. by rewrite saves_app, Hs1, Hs2.
  - intros acc. by rewrite saves_verified_app, Hsv1, Hsv2.
  - intros Hr acc. rewrite verified_after_app. by apply Hv2.
Qed.

Lemma sound_run_call {A} (good : A) (m : Method) r w ev :
  sound_run good (r, w, ev) → sound_run good (r, w, Call m :: ev).
Proof.
  intros Hs. apply (sound_run_after good good (Raises unpack_error) w [Call m]);
    [|done|done].
  by split.
Qed.

Lemma sound_run_raises {A} (good : A) (e e' : exn) w ev :
  sound_run good (Raises e, w, ev) → sound_run good (Raises e', w, ev).
Proof.
  intros [_ Hs Hsv _]. split; unfold result, events in *; simpl in *;
    [done | intros _; by apply Hs | done | done].
Qed.

Lemma check_is_logged_run (w : World) :
  _check_is_logged w
  = let r := mkRequest "get" _login_check_url [] [] in
    let '(srv, jar, body) := util_req r (remote w) (cookies w) in
    let w' := mkWorld srv jar (files w) (stdin w) in
    match body with
    | Ret status =>
        match is_logged_in status with
        | Ret logged => (Returns logged, w', [Req r; Checked jar logged])
        | Raise e => (Raises e, w', [Req r])
        end
    | Raise e => (Raises e, w', [Req r])
    end.
Proof.
  unfold _check_is_logged, req. unfold_M. simpl.
  destruct (util_req _ _ _) as [[srv jar] [status|e]]; simpl; [|done].
  by destruct (is_logged_in status).
Qed.

Lemma save_cookies_run (w : World) :
  _save_cookies w
  = (Returns tt,
     with_files (<[COOKIES_FILE := pickle_dumps (cookies w)]> (files w)) w,
     [LogMsg ((if bool_decide (is_Some (files w !! COOKIES_FILE))
               then "Rewriting local cookie file: "
               else "Saving cookies to local file: ") +:+ COOKIES_FILE);
      Save (cookies w)]).
Proof.
  unfold _save_cookies, os_path_isfile, os_path_exists, dump_pickle.
  unfold_M. simpl. by destruct (bool_decide _).
Qed.

Ltac sym_step :=
  match goal with
  | |- context [util_req ?r ?s ?j] =>
      destruct (util_req r s j) as [[? ?] [?|?]]
  | |- context [is_logged_in ?b] => destruct (is_logged_in b) as [[]|?]
  | |- context [re_search_post_key ?p] => destruct (re_search_post_key p)
  | |- context [pickle_load ?c] => destruct (pickle_load c)
  | |- context [bool_decide (exn_cls ?e ∈ ?cs)] =>
      destruct (bool_decide (exn_cls e ∈ cs))
  | |- context [_check_is_logged ?w] => rewrite (check_is_logged_run w)
  | |- context [_save_cookies ?w] => rewrite (save_cookies_run w)
  end; simpl.

Ltac solve_run :=
  repeat split; simpl; intros; rewrite ?bool_decide_true by done; try done.

Lemma AccountClient_login_run (username password : string) (w : World) :
  strategy_run AccountClient_login_m (AccountClient_login username password w)
  ∧ prompts (events (AccountClient_login username password w)) = [].
Proof.
  unfold AccountClient_login, _get_postkey, req. unfold_M.
  repeat sym_step; solve_run.
Qed.

Lemma local_cookies_login_run (w : World) :
  strategy_run local_cookies_login_m (_local_cookies_login w)
  ∧ prompts (events (_local_cookies_login w)) = []
  ∧ saves (events (_local_cookies_login w)) = [].
Proof.
  unfold _local_cookies_login, os_path_exists, load_pickle, os_remove.
  unfold_M. simpl.
  destruct (files w !! COOKIES_FILE) as [content|] eqn:Hfile; simpl;
    rewrite ?Hfile; simpl; [|solve_run].
  repeat (sym_step; rewrite ?Hfile; simpl); solve_run.
Qed.

Ltac sym_round :=
  match goal with
  | |- context [_change_to_new_cookies ?c ?w] =>
      rewrite (change_to_new_cookies_run c w)
  | |- context [set_entries ?l ?j] => destruct (set_entries l j) as [[] ?]
  | |- context [bool_decide (?a ∈ ?l)] => destruct (bool_decide (a ∈ l))
  end; simpl.

Lemma user_cookies_round_run (w : World) :
  calls (events (user_cookies_round w)) = []
  ∧ sound_run Return (user_cookies_round w)
  ∧ (result (user_cookies_round w) = Returns Continue →
     (length (stdin (world (user_cookies_round w))) < length (stdin w))%nat).
Proof.
  unfold user_cookies_round, input. unfold_M.
  destruct (stdin w) as [|line rest] eqn:Hin; simpl; [solve_run|].
  destruct (bool_decide (lower (strip line) ∈ ["n"; "no"])); simpl;
    [solve_run|].
  destruct (bool_decide (lower (strip line) ∈ ["y"; "yes"])); simpl;
    [|solve_run; lia].
  destruct rest as [|cookies rest]; simpl; [solve_run|].
  repeat (first [sym_round | sym_step]); solve_run; lia.
Qed.

Lemma while_True_run (fuel : nat) (w : World) :
  calls (events (while_True fuel user_cookies_round w)) = []
  ∧ result (while_True fuel user_cookies_round w) ≠ Returns Continue
  ∧ ((length (stdin w) < fuel)%nat →
     sound_run Return (while_True fuel user_cookies_round w)).
Proof.
  revert w. induction fuel as [|fuel IH]; intros w.
  - simpl. split; [done|]. split; [done|]. intros Hlt. lia.
  - simpl. rewrite bind_run.
    destruct (user_cookies_round_run w) as (Hc & Hsound & Hread).
    destruct (user_cookies_round w) as [[[[]|e|] w1] ev1];
      unfold_M; rewrite ?app_nil_r; try done.
    destruct (IH w1) as (Hc2 & Hnc & Hsound2).
    destruct (while_True fuel user_cookies_round w1) as [[r2 w2] ev2].
    unfold result, world, events in *. simpl in *.
    split; [|split].
    + by rewrite calls_app, Hc, Hc2.
    + done.
    + intros Hlt. specialize (Hread eq_refl).
      apply (sound_run_after Return Return _ w1 _ _ _ _ Hsound);
        [done | apply Hsound2; lia].
Qed.

(** The number of rounds allotted does not matter, once it exceeds the number
    of lines there are to read. *)
Lemma user_cookies_loop_fuel (n m : nat) (w : World) :
  (length (stdin w) < n)%nat → (length (stdin w) < m)%nat →
  while_True n user_cookies_round w = while_True m user_cookies_round w.
Proof.
  revert m w. induction n as [|n IH]; intros m w Hn Hm; [lia|].
  destruct m as [|m]; [lia|]. simpl. rewrite !bind_run.
  destruct (user_cookies_round_run w) as (_ & _ & Hread).
  destruct (user_cookies_round w) as [[[[]|e|] w1] ev1]; try done.
  unfold result, world in Hread. simpl in Hread. specialize (Hread eq_refl).
  rewrite (IH m w1) by lia. done.
Qed.

Lemma user_cookies_login_run (w : World) :
  strategy_run user_cookies_login_m (_user_cookies_login w).
Proof.
  unfold _user_cookies_login. rewrite emit_bind_run.
  unfold util_log. rewrite emit_bind_run. rewrite bind_run.
  unfold get_world. cbv beta iota. rewrite bind_run.
  destruct (while_True_run (S (length (stdin w))) w) as (Hc & Hnc & Hsound).
  specialize (Hsound ltac:(lia)). destruct Hsound as [Hends Hs Hsv Hv].
  destruct (while_True (S (length (stdin w))) user_cookies_round w)
    as [[[[]|e|] w1] ev1]; unfold result, world, events in *; simpl in *;
    try done; unfold_M; simpl; rewrite ?app_nil_r.
  all: repeat split; simpl; rewrite ?Hc; try done;
    try (intros _; by apply Hs); auto.
Qed.

(** *** The paths through the cascade *)

Lemma caught_LoginError (e : exn) :
  bool_decide (exn_cls e ∈ [LoginError]) = true ↔ exn_cls e = LoginError.
Proof. rewrite bool_decide_eq_true. apply list_elem_of_singleton. Qed.

Lemma not_caught_LoginError (e : exn) :
  bool_decide (exn_cls e ∈ [LoginError]) = false ↔ exn_cls e ≠ LoginError.
Proof. rewrite bool_decide_eq_false. by rewrite list_elem_of_singleton. Qed.

Lemma CookiesClient_login_path (w : World) :
  cookies_path w (CookiesClient_login w).
Proof.
  unfold CookiesClient_login. rewrite emit_bind_run. unfold try_except.
  destruct (local_cookies_login_run w) as ((_ & [Hends _ _ _]) & _).
  destruct (_local_cookies_login w) as [[[[]|e|] w1] ev1] eqn:Hl;
    [by eapply cookies_local | | done].
  destruct (bool_decide (exn_cls e ∈ [LoginError])) eqn:He.
  2: { apply not_caught_LoginError in He. by eapply cookies_local_escapes. }
  apply caught_LoginError in He.
  destruct (user_cookies_login_run w1) as (_ & [Hends2 _ _ _]).
  destruct (_user_cookies_login w1) as [[[[]|e'|] w2] ev2] eqn:Hu;
    [by eapply cookies_user | | done].
  destruct (bool_decide (exn_cls e' ∈ [LoginError])) eqn:He'.
  - apply caught_LoginError in He'. unfold raise. rewrite app_nil_r.
    by eapply cookies_both_fail.
  - apply not_caught_LoginError in He'. by eapply cookies_user_escapes.
Qed.

Lemma WebAPIClient_init_path (username password : string) (w : World) :
  ∃ x, login_path username password (with_cookies new_session w) x
       ∧ WebAPIClient__init__ username password w = after_login x.
Proof.
  unfold WebAPIClient__init__, BaseClient__init__. rewrite bind_run.
  cbv beta iota. rewrite bind_run. unfold try_except.
  set (w0 := with_cookies new_session w).
  assert (Hdef : ∀ w1, DefaultAPIClient__init__ w1
    = (of_result (DefaultAPIClient_init (cookies w1)), w1,
       [Call DefaultAPIClient_init_m])).
  { intros w1. unfold DefaultAPIClient__init__. rewrite emit_bind_run.
    unfold_M. by destruct (DefaultAPIClient_init _). }
  destruct (AccountClient_login_run username password w0)
    as ((_ & [Hends _ _ _]) & _).
  destruct (AccountClient_login username password w0)
    as [[[[]|e|] w1] ev1] eqn:Ha; [| |done].
  { eexists. split; [by eapply login_account|].
    rewrite Hdef. unfold after_login. simpl. reflexivity. }
  destruct (bool_decide (exn_cls e ∈ [LoginError])) eqn:He.
  2: { apply not_caught_LoginError in He. eexists.
       split; [by eapply login_account_escapes|]. reflexivity. }
  apply caught_LoginError in He.
  pose proof (CookiesClient_login_path w1) as Hc.
  destruct (CookiesClient_login w1) as [[[[]|e'|] w2] ev2] eqn:Hck.
  - eexists. split; [by eapply login_cookies|].
    rewrite Hdef. unfold after_login. simpl. reflexivity.
  - destruct (bool_decide (exn_cls e' ∈ [LoginError])) eqn:He'.
    + apply caught_LoginError in He'. eexists.
      split; [by eapply login_all_fail|]. unfold raise. simpl.
      by rewrite app_nil_r.
    + apply not_caught_LoginError in He'. eexists.
      split; [by eapply login_cookies_escapes|]. reflexivity.
  - inversion Hc.
Qed.

Lemma cookies_path_run (w : World) x :
  cookies_path w x →
  sound_run tt x
  ∧ (calls (events x) = [CookiesClient_login_m; local_cookies_login_m]
     ∨ calls (events x) = [CookiesClient_login_m; local_cookies_login_m;
                           user_cookies_login_m]).
Proof.
  intros Hpath.
  destruct (local_cookies_login_run w) as ((Hc1 & Hs1) & _).
  inversion Hpath as [w1 ev1 Hl | e w1 ev1 Hl He | e w1 ev1 w2 ev2 Hl He Hu
    | e w1 ev1 e' w2 ev2 Hl He Hu He' | e w1 ev1 e' w2 ev2 Hl He Hu He'];
    subst x; rewrite Hl in Hc1, Hs1; unfold events in *; simpl in *.
  1,2: split; [by apply sound_run_call | left; by rewrite Hc1].
  all: destruct (user_cookies_login_run w1) as (Hc2 & Hs2);
    rewrite Hu in Hc2, Hs2; unfold events in *; simpl in *.
  all: split; [|right; by rewrite calls_app, Hc1, Hc2].
  all: apply sound_run_call.
  1,2: by apply (sound_run_after tt tt (Raises e) w1).
  apply (sound_run_after tt tt (Raises e) w1); [done..|].
  by apply (sound_run_raises tt e').
Qed.

Lemma login_path_run (username password : string) (w0 : World) x :
  login_path username password w0 x →
  sound_run tt x
  ∧ (calls (events x) = [AccountClient_login_m]
     ∨ calls (events x) = [AccountClient_login_m; CookiesClient_login_m;
                           local_cookies_login_m]
     ∨ calls (events x) = [AccountClient_login_m; CookiesClient_login_m;
                           local_cookies_login_m; user_cookies_login_m]).
Proof.
  intros Hpath.
  destruct (AccountClient_login_run username password w0) as ((Hc1 & Hs1) & _).
  inversion Hpath as [w1 ev1 Ha | e w1 ev1 Ha He | e w1 ev1 w2 ev2 Ha He Hk
    | e w1 ev1 e' w2 ev2 Ha He Hk He' | e w1 ev1 e' w2 ev2 Ha He Hk He'];
    subst x; rewrite Ha in Hc1, Hs1; unfold events in *; simpl in *.
  1,2: split; [done | by left].
  all: destruct (cookies_path_run w1 _ (CookiesClient_login_path w1))
    as (Hs2 & Hc2); rewrite Hk in Hc2, Hs2; unfold events in *; simpl in *.
  all: split;
    [|right; rewrite calls_app, Hc1; destruct Hc2 as [-> | ->]; auto].
  1,2: by apply (sound_run_after tt tt (Raises e) w1).
  apply (sound_run_after tt tt (Raises e) w1); [done..|].
  by apply (sound_run_raises tt e').
Qed.

Lemma attempted_app ev1 ev2 :
  attempted (ev1 ++ ev2) = attempted ev1 ++ attempted ev2.
Proof. unfold attempted. by rewrite calls_app, omap_app. Qed.

Lemma attempted_cookies_call ev :
  attempted (Call CookiesClient_login_m :: ev) = attempted ev.
Proof. reflexivity. Qed.

Lemma WebAPIClient_init_ends (username password : string) (w : World) :
  result (WebAPIClient__init__ username password w) ≠ OutOfFuel.
Proof.
  destruct (WebAPIClient_init_path username password w) as (x & Hpath & ->).
  destruct (login_path_run _ _ _ _ Hpath) as ([Hends _ _ _] & _).
  unfold after_login. destruct x as [[[[]|e|] w1] ev1]; try done.
  unfold result. simpl. by destruct (DefaultAPIClient_init _).
Qed.

(** [WebAPIClient.__init__] and [CookiesClient._login] by what the first
    strategy does: a result other than LoginError is final, and after a
    LoginError the next one is run where the first has stopped. *)
Lemma cascade_after_local (w : World) :
  CookiesClient_login w
  = let stored := _local_cookies_login w in
    if fails_with_LoginError (result stored)
    then let typed := _user_cookies_login (world stored) in
         (except_LoginError cookies_failed (result typed), world typed,
          Call CookiesClient_login_m :: events stored ++ events typed)
    else (result stored, world stored,
          Call CookiesClient_login_m :: events stored).
Proof.
  cbv zeta. unfold CookiesClient_login. rewrite emit_bind_run.
  unfold try_except at 1.
  destruct (_local_cookies_login w) as [[[[]|e|] w1] ev1];
    unfold result, world, events; simpl; try done.
  rewrite (bool_decide_ext (exn_cls e ∈ [LoginError]) (exn_cls e = LoginError))
    by apply list_elem_of_singleton.
  destruct (bool_decide (exn_cls e = LoginError)); [|done].
  unfold try_except.
  destruct (_user_cookies_login w1) as [[[[]|e'|] w2] ev2]; simpl; try done.
  rewrite (bool_decide_ext (exn_cls e' ∈ [LoginError])
             (exn_cls e' = LoginError)) by apply list_elem_of_singleton.
  destruct (bool_decide (exn_cls e' = LoginError)); [|done].
  unfold raise. simpl. by rewrite app_nil_r.
Qed.

Lemma cascade_after_account (username password : string) (w : World) :
  WebAPIClient__init__ username password w
  = let account :=
      AccountClient_login username password (with_cookies new_session w) in
    after_login
      (if fails_with_LoginError (result account)
       then let cookies_login := CookiesClient_login (world account) in
            (except_LoginError web_client_failed (result cookies_login),
             world cookies_login, events account ++ events cookies_login)
       else account).
Proof.
  cbv zeta. unfold WebAPIClient__init__, BaseClient__init__.
  rewrite bind_run. cbv beta iota. rewrite bind_run.
  assert (Hdef : ∀ w1, DefaultAPIClient__init__ w1
    = (of_result (DefaultAPIClient_init (cookies w1)), w1,
       [Call DefaultAPIClient_init_m])).
  { intros w1. unfold DefaultAPIClient__init__. rewrite emit_bind_run.
    unfold_M. by destruct (DefaultAPIClient_init _). }
  unfold try_except at 1.
  destruct (AccountClient_login username password _) as [[[[]|e|] w1] ev1];
    unfold result, world, events; cbn [fst snd fails_with_LoginError];
    [by rewrite Hdef | | done].
  rewrite (bool_decide_ext (exn_cls e ∈ [LoginError]) (exn_cls e = LoginError))
    by apply list_elem_of_singleton.
  destruct (bool_decide (exn_cls e = LoginError)); [|done].
  unfold try_except.
  destruct (CookiesClient_login w1) as [[[[]|e'|] w2] ev2];
    cbn [fst snd except_LoginError].
  - by rewrite Hdef.
  - rewrite (bool_decide_ext (exn_cls e' ∈ [LoginError])
               (exn_cls e' = LoginError)) by apply list_elem_of_singleton.
    destruct (bool_decide (exn_cls e' = LoginError)); [|done].
    unfold raise. cbn [app]. by rewrite app_nil_r.
  - done.
Qed.

(** The strategies attempted, by how the ones before have ended. *)
Lemma attempted_cascade (username password : string) (w : World) :
  let account :=
    AccountClient_login username password (with_cookies new_session w) in
  attempted (events (WebAPIClient__init__ username password w))
  = DirectCredentials
      :: (if fails_with_LoginError (result account)
          then StoredSession
                 :: (if fails_with_LoginError
                          (result (_local_cookies_login (world account)))
                     then [InteractiveSession] else [])
          else []).
Proof.
  intros account. rewrite cascade_after_account. cbv zeta. fold account.
  destruct (AccountClient_login_run username password
              (with_cookies new_session w)) as ((Hc & _) & _).
  fold account in Hc.
  assert (Hatt : ∀ x, attempted (events (after_login x))
                      = attempted (events x)).
  { intros x. unfold after_login. destruct (result x); try done.
    unfold events at 1. simpl. rewrite attempted_app. apply app_nil_r. }
  rewrite Hatt.
  destruct (fails_with_LoginError (result account)).
  2: { unfold attempted. by rewrite Hc. }
  unfold events at 1. cbn [snd]. rewrite attempted_app.
  unfold attempted at 1. rewrite Hc. cbn [omap app].
  f_equal. rewrite cascade_after_local. cbv zeta.
  destruct (local_cookies_login_run (world account)) as ((Hc2 & _) & _).
  destruct (fails_with_LoginError
              (result (_local_cookies_login (world account)))).
  - destruct (user_cookies_login_run
                (world (_local_cookies_login (world account))))
      as (Hc3 & _).
    unfold events at 1. cbn [snd]. rewrite attempted_cookies_call.
    rewrite attempted_app. unfold attempted. by rewrite Hc2, Hc3.
  - unfold events at 1. cbn [snd]. rewrite attempted_cookies_call.
    unfold attempted. by rewrite Hc2.
Qed.

(** *** The cascade *)

(** C3. The strategies are tried in order, and the first success ends the
    cascade.  When the login with the account succeeds,
    [WebAPIClient.__init__] enters neither [CookiesClient._login] nor one of
    its two strategies and never prompts; when the login with the local
    cookies succeeds, [CookiesClient._login] does not enter
    [_user_cookies_login], so that the user is not prompted.  When the login
    with the account fails (LoginError), [CookiesClient._login] is run next,
    in the world the account login has left, and decides the outcome; when
    the login with the local cookies fails, [_user_cookies_login] is run next
    and decides the outcome of [CookiesClient._login].  In every run the
    strategies attempted are the account, then the local cookies exactly when
    the account has failed, then the user's cookies exactly when the local
    cookies have failed too. *)
Theorem login_cascade_short_circuit (username password : string) (w : World) :
  let init := WebAPIClient__init__ username password w in
  let account :=
    AccountClient_login username password (with_cookies new_session w) in
  let stored := _local_cookies_login w in
  (result account = Returns tt →
     init = after_login account
     ∧ calls (events init) = [AccountClient_login_m; DefaultAPIClient_init_m]
     ∧ prompts (events init) = [])
  ∧ (result stored = Returns tt →
     CookiesClient_login w
     = (Returns tt, world stored, Call CookiesClient_login_m :: events stored)
     ∧ calls (events (CookiesClient_login w))
       = [CookiesClient_login_m; local_cookies_login_m]
     ∧ prompts (events (CookiesClient_login w)) = [])
  ∧ (fails_with_LoginError (result account) = true →
     let cookies_login := CookiesClient_login (world account) in
     init = after_login
              (except_LoginError web_client_failed (result cookies_login),
               world cookies_login, events account ++ events cookies_login))
  ∧ (fails_with_LoginError (result stored) = true →
     let typed := _user_cookies_login (world stored) in
     CookiesClient_login w
     = (except_LoginError cookies_failed (result typed), world typed,
        Call CookiesClient_login_m :: events stored ++ events typed))
  ∧ attempted (events init)
    = DirectCredentials
        :: (if fails_with_LoginError (result account)
            then StoredSession
                   :: (if fails_with_LoginError
                            (result (_local_cookies_login (world account)))
                       then [InteractiveSession] else [])
            else []).
Proof.
  intros init account stored. split; [|split; [|split; [|split]]].
  - intros Hret. subst init.
    destruct (WebAPIClient_init_path username password w) as (x & Hpath & ->).
    destruct (AccountClient_login_run username password
                (with_cookies new_session w)) as ((Hc & _) & Hp).
    fold account in Hc, Hp.
    assert (x = account) as ->.
    { inversion Hpath as [w1 ev1 Ha | e w1 ev1 Ha He | e w1 ev1 w2 ev2 Ha He Hk
        | e w1 ev1 e' w2 ev2 Ha He Hk He' | e w1 ev1 e' w2 ev2 Ha He Hk He'];
        fold account in Ha; rewrite Ha in Hret; try done. }
    split; [done|]. unfold after_login. rewrite Hret.
    unfold events in *. simpl. by rewrite calls_app, prompts_app, Hc, Hp.
  - intros Hret. subst stored.
    destruct (local_cookies_login_run w) as ((Hc & _) & Hp & _).
    pose proof (CookiesClient_login_path w) as Hpath.
    inversion Hpath as [w1 ev1 Hl Hx | e w1 ev1 Hl He Hx
      | e w1 ev1 w2 ev2 Hl He Hu Hx | e w1 ev1 e' w2 ev2 Hl He Hu He' Hx
      | e w1 ev1 e' w2 ev2 Hl He Hu He' Hx];
      rewrite Hl in Hret, Hc, Hp; try done.
    rewrite Hl. unfold events, world in *. simpl in *. by rewrite Hc, Hp.
  - intros Hfail cookies_login. subst init cookies_login.
    rewrite cascade_after_account. cbv zeta. fold account.
    by rewrite Hfail.
  - intros Hfail typed. subst typed.
    rewrite cascade_after_local. cbv zeta. fold stored. by rewrite Hfail.
  - apply attempted_cascade.
Qed.

(** C6. Every strategy, [CookiesClient._login] and [WebAPIClient.__init__]
    save the session cookies only right after [_check_is_logged] has returned
    true for the very jar that is saved (log lines apart); a strategy that
    does not return saves nothing; and whenever one of them returns, the
    session holds the jar the service has accepted. *)
Theorem persisted_only_after_verification
    (username password : string) (w : World) :
  let init := WebAPIClient__init__ username password w in
  sound_run tt (AccountClient_login username password w)
  ∧ sound_run tt (_local_cookies_login w)
  ∧ sound_run tt (_user_cookies_login w)
  ∧ sound_run tt (CookiesClient_login w)
  ∧ (∀ acc, saves_verified acc (events init) = true)
  ∧ (result init = Returns tt →
     ∃ ev, events init = ev ++ [Call DefaultAPIClient_init_m]
           ∧ ∀ acc, verified_after acc ev = Some (cookies (world init))).
Proof.
  intros init. repeat apply conj.
  - apply AccountClient_login_run.
  - apply local_cookies_login_run.
  - apply user_cookies_login_run.
  - apply (cookies_path_run w), CookiesClient_login_path.
  - intros acc. subst init.
    destruct (WebAPIClient_init_path username password w) as (x & Hpath & ->).
    destruct (login_path_run _ _ _ _ Hpath) as ([_ _ Hsv _] & _).
    unfold after_login. destruct (result x); try done.
    unfold events at 1. simpl. by rewrite saves_verified_app, Hsv.
  - subst init.
    destruct (WebAPIClient_init_path username password w) as (x & Hpath & ->).
    destruct (login_path_run _ _ _ _ Hpath) as ([_ _ _ Hv] & _).
    unfold after_login. destruct x as [[[[]|e|] w1] ev1]; try done.
    intros _. exists ev1. split; [done|]. by apply Hv.
Qed.

(** C7, as the code has it. When the three strategies all fail by raising
    LoginError, [WebAPIClient.__init__] raises the one LoginError of its own,
    nothing has been saved and [DefaultAPIClient.__init__] is not reached; and
    no other LoginError leaves the login: one that leaves
    [WebAPIClient.__init__] before [DefaultAPIClient.__init__] is entered is
    this one. *)
Theorem login_cascade_exhausted (username password : string) (w : World) :
  let init := WebAPIClient__init__ username password w in
  (∀ e1 w1 ev1 e2 w2 ev2 e3 w3 ev3,
     AccountClient_login username password (with_cookies new_session w)
     = (Raises e1, w1, ev1) → exn_cls e1 = LoginError →
     _local_cookies_login w1 = (Raises e2, w2, ev2) →
     exn_cls e2 = LoginError →
     _user_cookies_login w2 = (Raises e3, w3, ev3) →
     exn_cls e3 = LoginError →
     init = (Raises web_client_failed, w3,
             ev1 ++ Call CookiesClient_login_m :: ev2 ++ ev3)
     ∧ saves (events init) = []
     ∧ calls (events init)
       = [AccountClient_login_m; CookiesClient_login_m;
          local_cookies_login_m; user_cookies_login_m])
  ∧ (∀ e, result init = Raises e → exn_cls e = LoginError →
       DefaultAPIClient_init_m ∉ calls (events init) →
       e = web_client_failed).
Proof.
  intros init. split.
  - intros e1 w1 ev1 e2 w2 ev2 e3 w3 ev3 Ha He1 Hl He2 Hu He3.
    assert (Hinit : init = (Raises web_client_failed, w3,
                            ev1 ++ Call CookiesClient_login_m :: ev2 ++ ev3)).
    { subst init. unfold WebAPIClient__init__, BaseClient__init__.
      rewrite bind_run. cbv beta iota. rewrite bind_run.
      unfold try_except at 1. rewrite Ha.
      rewrite (proj2 (caught_LoginError e1) He1).
      unfold try_except at 1. unfold CookiesClient_login.
      rewrite emit_bind_run. unfold try_except at 1. rewrite Hl.
      rewrite (proj2 (caught_LoginError e2) He2).
      unfold try_except at 1. rewrite Hu.
      rewrite (proj2 (caught_LoginError e3) He3).
      unfold raise. simpl. by rewrite !app_nil_r. }
    split; [done|]. rewrite Hinit. unfold events. simpl.
    destruct (AccountClient_login_run username password
                (with_cookies new_session w)) as ((Hc1 & [_ Hs1 _ _]) & _).
    destruct (local_cookies_login_run w1) as ((Hc2 & _) & _ & Hs2).
    destruct (user_cookies_login_run w2) as (Hc3 & [_ Hs3 _ _]).
    rewrite Ha in Hc1, Hs1. rewrite Hl in Hc2, Hs2. rewrite Hu in Hc3, Hs3.
    unfold result, events in *. simpl in *.
    rewrite saves_app, calls_app. simpl.
    rewrite saves_app, calls_app, Hc1, Hc2, Hc3, Hs1, Hs2, Hs3 by done.
    done.
  - intros e Hres Hcls Hdef. subst init.
    destruct (WebAPIClient_init_path username password w) as (x & Hpath & Hx).
    rewrite Hx in Hres, Hdef. unfold after_login in Hres, Hdef.
    destruct x as [[[[]|e'|] w1] ev1]; unfold result, events in *;
      simpl in *; [| |done].
    + exfalso. apply Hdef. rewrite calls_app. simpl.
      apply elem_of_app. right. by left.
    + injection Hres as ->.
      inversion Hpath as [w2 ev2 Ha | e2 w2 ev2 Ha He | e2 w2 ev2 w3 ev3 Ha He Hk
        | e2 w2 ev2 e3 w3 ev3 Ha He Hk He' | e2 w2 ev2 e3 w3 ev3 Ha He Hk He'];
        by subst.
Qed.

(** *** The order of the strategies *)

(** C8, as the code has it. The caller of [WebAPIClient.__init__] passes a
    user name and a password and no order: whatever these are and whatever
    the world is, the strategies attempted are the account first, then the
    local cookies, then the user's cookies, as far as the cascade gets; and
    it gets to the local cookies exactly when the account has failed
    (LoginError), to the user's cookies exactly when the local cookies have
    failed too. *)
Theorem login_order_is_fixed (username password : string) (w : World) :
  let init := WebAPIClient__init__ username password w in
  let account :=
    AccountClient_login username password (with_cookies new_session w) in
  let stored := _local_cookies_login (world account) in
  (attempted (events init) = [DirectCredentials]
   ∨ attempted (events init) = [DirectCredentials; StoredSession]
   ∨ attempted (events init)
     = [DirectCredentials; StoredSession; InteractiveSession])
  ∧ (StoredSession ∈ attempted (events init)
     ↔ fails_with_LoginError (result account) = true)
  ∧ (InteractiveSession ∈ attempted (events init)
     ↔ fails_with_LoginError (result account) = true
       ∧ fails_with_LoginError (result stored) = true).
Proof.
  intros init account stored. subst init.
  rewrite (attempted_cascade username password w). cbv zeta.
  fold account. fold stored.
  destruct (fails_with_LoginError (result account)),
    (fails_with_LoginError (result stored)).
  all: split; [auto|]; split; split.
  all: try done; try (intros []; done).
  all: intros Hin; try (repeat constructor; done).
  all: repeat (apply elem_of_cons in Hin as [Hin|Hin]; [done|]).
  all: by apply elem_of_nil in Hin.
Qed.

(** *** The local cookies file *)

(** C5, as the code has it. When [pickle.load] raises on the content of the
    cookies file, what happens depends on the class of the exception.  For
    UnpicklingError the file is removed and the strategy raises LoginError,
    after which a new attempt finds no file.  Any other exception leaves
    [_local_cookies_login] as it is, and the file stays where it was, with its
    content. *)
Theorem corrupted_cookies_file (w : World) (content : string) (e : exn) :
  files w !! COOKIES_FILE = Some content →
  pickle_load content = Raise e →
  let found := LogMsg ("Cookie file found: " +:+ COOKIES_FILE
                       +:+ ", attempt to login with local cookie") in
  let removed := with_files (delete COOKIES_FILE (files w)) w in
  (exn_cls e = UnpicklingError →
     _local_cookies_login w
     = (Raises cookies_login_failed, removed,
        [Call local_cookies_login_m; found; Remove COOKIES_FILE;
         LogMsg ("Removed corrupted cookies file, message: " +:+ exn_str e)])
     ∧ files removed !! COOKIES_FILE = None
     ∧ _local_cookies_login removed
       = (Raises cookies_not_found, removed, [Call local_cookies_login_m]))
  ∧ (exn_cls e ≠ UnpicklingError →
     _local_cookies_login w
     = (Raises e, w, [Call local_cookies_login_m; found])
     ∧ files w !! COOKIES_FILE = Some content).
Proof.
  intros Hfile Hload found removed.
  assert (Hgone : files removed !! COOKIES_FILE = None).
  { unfold removed. simpl. apply lookup_delete_eq. }
  split.
  - intros Hcls. split; [|split; [done|]].
    + unfold _local_cookies_login, os_path_exists, load_pickle, os_remove.
      unfold_M. simpl. rewrite Hfile. simpl. rewrite Hfile, Hload. simpl.
      rewrite bool_decide_true by (rewrite Hcls; by left).
      rewrite Hfile. simpl. by destruct w.
    + unfold _local_cookies_login, os_path_exists. unfold_M. cbv beta.
      rewrite Hgone. simpl. by destruct w.
  - intros Hcls. split; [|done].
    unfold _local_cookies_login, os_path_exists, load_pickle, os_remove.
    unfold_M. simpl. rewrite Hfile. simpl. rewrite Hfile, Hload. simpl.
    rewrite bool_decide_false; [done|].
    by intros ?%list_elem_of_singleton.
Qed.

(** *** The cookies the user types *)

Lemma split1_shape (sep : ascii) (s : string) :
  if contains sep s then ∃ name value, split1 sep s = [name; value]
  else split1 sep s = [s].
Proof.
  induction s as [|c s IH]; simpl; [done|].
  destruct (decide (c = sep)) as [->|Hne].
  - rewrite bool_decide_true by done. simpl. eauto.
  - rewrite bool_decide_false by done. simpl.
    destruct (contains sep s).
    + destruct IH as (name & value & ->). eauto.
    + by rewrite IH.
Qed.

Lemma set_entries_ok (entries : list string) (jar : gmap string string) :
  (set_entries entries jar).1 = forallb (contains "=") entries.
Proof.
  revert jar. induction entries as [|entry rest IH]; intros jar; simpl;
    [done|].
  pose proof (split1_shape "=" entry) as Hshape.
  destruct (contains "=" entry); simpl.
  - destruct Hshape as (name & value & ->). apply IH.
  - by rewrite Hshape.
Qed.

(** C4, as the code has it. [_change_to_new_cookies] first removes all the
    cookies of the session and then sets the entries one after the other: for
    a=1;b=2 the jar ends up holding exactly a=1 and b=2; an entry without an
    equals sign makes it raise LoginError (and only that does), with the old
    cookies gone and the entries before the malformed one set, so that for
    a=1;bad the jar holds exactly a=1. *)
Theorem change_to_new_cookies_parse (user_cookies : string) (w : World) :
  let run := _change_to_new_cookies user_cookies w in
  let entries := split ";" user_cookies in
  cookies (world run) = (set_entries entries ∅).2
  ∧ events run = []
  ∧ result run = (if forallb (contains "=") entries then Returns tt
                  else Raises invalid_cookies)
  ∧ (user_cookies = "a=1;b=2" →
     result run = Returns tt
     ∧ cookies (world run) = <["b" := "2"]> (<["a" := "1"]> ∅))
  ∧ (user_cookies = "a=1;bad" →
     result run = Raises invalid_cookies
     ∧ cookies (world run) = <["a" := "1"]> ∅).
Proof.
  intros run entries. subst run entries.
  rewrite change_to_new_cookies_run. unfold result, world, events. simpl.
  rewrite set_entries_ok. do 3 (split; [done|]).
  split; intros ->; split; reflexivity.
Qed.

(** *** More on the strategies *)

Definition post_key_request : Request := mkRequest "get" _post_key_url [] [].
Definition status_request : Request := mkRequest "get" _login_check_url [] [].
Definition login_request (username password postkey : string) : Request :=
  mkRequest "post" _login_url
    [("password", password); ("pixiv_id", username); ("post_key", postkey)]
    [("lang", "en")].

Definition requests (ev : list Event) : list Request :=
  omap (λ e, match e with Req r => Some r | _ => None end) ev.

Definition user_cookies_failed : exn :=
  Exn LoginError "Failed login with user cookies".
Definition end_of_input : exn := Exn EOFError "EOF when reading a line".

(** A run started in [w] that sends nothing but status requests, reads its
    lines from the front of the input, and writes the cookies file, with the
    pickle of the session's jar, exactly when it returns [good]. *)
Record tidy_run {A} (good : A) (w : World)
    (x : Outcome A * World * list Event) : Prop := {
  tidy_requests : Forall (λ r, r = status_request) (requests (events x));
  tidy_stdin : stdin (world x) `suffix_of` stdin w;
  tidy_saved : result x = Returns good →
    files (world x)
    = <[COOKIES_FILE := pickle_dumps (cookies (world x))]> (files w);
  tidy_unsaved : result x ≠ Returns good → files (world x) = files w
}.

Lemma requests_app ev1 ev2 :
  requests (ev1 ++ ev2) = requests ev1 ++ requests ev2.
Proof. apply omap_app. Qed.

Lemma tidy_run_after {A B} (good1 : A) (good2 : B) w o1 w1 ev1 r2 w2 ev2 :
  tidy_run good1 w (o1, w1, ev1) → o1 ≠ Returns good1 →
  tidy_run good2 w1 (r2, w2, ev2) →
  tidy_run good2 w (r2, w2, ev1 ++ ev2).
Proof.
  intros [Hr1 Hs1 _ Hf1] Hne [Hr2 Hs2 Hsv2 Hf2].
  unfold result, world, events in *. simpl in *. specialize (Hf1 Hne).
  split; unfold result, world, events; simpl.
  - rewrite requests_app. by apply Forall_app.
  - by etrans.
  - intros Hr. rewrite <- Hf1. by apply Hsv2.
  - intros Hr. rewrite <- Hf1. by apply Hf2.
Qed.

Ltac solve_tidy :=
  split; unfold result, world, events; simpl; intros; try done;
  try (repeat constructor; done);
  try match goal with H : stdin _ = _ |- _ => rewrite H end;
  try (by repeat apply suffix_cons_r).

Lemma user_cookies_round_tidy (w : World) :
  tidy_run Return w (user_cookies_round w).
Proof.
  unfold user_cookies_round, input. unfold_M.
  destruct (stdin w) as [|line rest] eqn:Hin; simpl; [solve_tidy|].
  destruct (bool_decide (lower (strip line) ∈ ["n"; "no"])); simpl;
    [solve_tidy|].
  destruct (bool_decide (lower (strip line) ∈ ["y"; "yes"])); simpl;
    [|solve_tidy].
  destruct rest as [|cookies rest]; simpl; [solve_tidy|].
  repeat (first [sym_round | sym_step]); solve_tidy.
Qed.

Lemma while_True_tidy (fuel : nat) (w : World) :
  tidy_run Return w (while_True fuel user_cookies_round w).
Proof.
  revert w. induction fuel as [|fuel IH]; intros w.
  - simpl. solve_tidy.
  - simpl. rewrite bind_run.
    pose proof (user_cookies_round_tidy w) as Hround.
    destruct (user_cookies_round w) as [[[[]|e|] w1] ev1];
      unfold_M; rewrite ?app_nil_r; try done.
    specialize (IH w1).
    destruct (while_True fuel user_cookies_round w1) as [[r2 w2] ev2].
    by apply (tidy_run_after Return Return w (Returns Continue) w1).
Qed.

Lemma user_cookies_login_tidy (w : World) :
  tidy_run tt w (_user_cookies_login w).
Proof.
  unfold _user_cookies_login. rewrite emit_bind_run.
  unfold util_log. rewrite emit_bind_run. rewrite bind_run.
  unfold get_world. cbv beta iota. rewrite bind_run.
  destruct (while_True_run (S (length (stdin w))) w) as (_ & Hnc & _).
  destruct (while_True_tidy (S (length (stdin w))) w) as [Hr Hs Hsv Hf].
  destruct (while_True (S (length (stdin w))) user_cookies_round w)
    as [[[[]|e|] w1] ev1]; unfold result, world, events in *; simpl in *;
    try done; unfold_M; simpl; rewrite ?app_nil_r.
  all: split; unfold result, world, events; simpl; try done.
  all: try (intros _; by apply Hf).
  all: try (intros _; by apply Hsv).
  all: try (intros Hne; by destruct Hne).
Qed.

Definition cookie_file_found : Event :=
  LogMsg ("Cookie file found: " +:+ COOKIES_FILE
          +:+ ", attempt to login with local cookie").

Definition user_cookies_offer : Event :=
  LogMsg
    ("Login with local cookies failed, would you like to provide a new cookies?"
     +:+ String newline " [y] Yesss!"
     +:+ String newline
       " [n] Noooo! (Attempt alternate login with username and password)").

Definition select_prompt : Event := Input " [=] Please select an option:".

Definition answer_complaint : Event :=
  Print "Please enter your answer as case-insensitive 'y' or 'n' or 'yes' or 'no'".

Lemma AccountClient_login_tidy (username password : string) (w : World) :
  let x := AccountClient_login username password w in
  stdin (world x) = stdin w
  ∧ (result x = Returns tt →
     files (world x)
     = <[COOKIES_FILE := pickle_dumps (cookies (world x))]> (files w))
  ∧ (result x ≠ Returns tt → files (world x) = files w)
  ∧ (requests (events x) = [post_key_request]
     ∨ ∃ key,
         requests (events x)
         = [post_key_request; login_request username password key]
         ∨ requests (events x)
           = [post_key_request; login_request username password key;
              status_request]).
Proof.
  unfold AccountClient_login, _get_postkey, req. unfold_M.
  repeat sym_step; unfold result, world, events; simpl;
    (split; [done|]); (split; [done|]); (split; [done|]); eauto.
Qed.

Lemma local_cookies_login_quiet (w : World) :
  let x := _local_cookies_login w in
  stdin (world x) = stdin w
  ∧ Forall (λ r, r = status_request) (requests (events x)).
Proof.
  unfold _local_cookies_login, os_path_exists, load_pickle, os_remove.
  unfold_M. simpl.
  destruct (files w !! COOKIES_FILE) as [content|] eqn:Hfile; simpl;
    rewrite ?Hfile; simpl; [|by split].
  repeat (sym_step; rewrite ?Hfile; simpl);
    unfold world, events; simpl; split; try done; repeat constructor.
Qed.

Lemma CookiesClient_login_requests (w : World) :
  Forall (λ r, r = status_request) (requests (events (CookiesClient_login w))).
Proof.
  pose proof (CookiesClient_login_path w) as Hpath.
  destruct (local_cookies_login_quiet w) as (_ & Hl).
  inversion Hpath as [w1 ev1 Hrun | e w1 ev1 Hrun He
    | e w1 ev1 w2 ev2 Hrun He Hu | e w1 ev1 e' w2 ev2 Hrun He Hu He'
    | e w1 ev1 e' w2 ev2 Hrun He Hu He'];
    rewrite Hrun in Hl; unfold events in *; simpl in *; try done.
  all: destruct (user_cookies_login_tidy w1) as [Hr _ _ _];
    rewrite Hu in Hr; unfold events in Hr; simpl in Hr.
  all: change (requests (Call CookiesClient_login_m :: ev1 ++ ev2))
    with (requests (ev1 ++ ev2)); rewrite requests_app; by apply Forall_app.
Qed.

(** X6. When the login page cannot be fetched (ReqException) or holds no
    post key, [AccountClient._login] raises LoginError with the reason after
    its only request: the password is not sent, the status is not checked,
    nothing is saved, and only the service and the cookie jar have moved. *)
Theorem account_login_no_post_key
    (username password : string) (w : World) srv jar body (reason : string) :
  util_req post_key_request (remote w) (cookies w) = (srv, jar, body) →
  match body with
  | Raise e => exn_cls e = ReqException ∧ reason = exn_str e
  | Ret page =>
      re_search_post_key page = None
      ∧ reason = "'NoneType' object has no attribute 'group'"
  end →
  AccountClient_login username password w
  = (Raises (Exn LoginError ("Failed to find post key: " +:+ reason)),
     mkWorld srv jar (files w) (stdin w),
     [Call AccountClient_login_m; Req post_key_request]).
Proof.
  intros Hreq Hbody.
  unfold AccountClient_login, _get_postkey, req. unfold_M.
  fold post_key_request. rewrite Hreq. simpl.
  destruct body as [page|e]; simpl.
  - destruct Hbody as [-> ->]. done.
  - destruct Hbody as [-> ->]. done.
Qed.

(** X7. When the login request itself raises ReqException,
    [AccountClient._login] raises LoginError with its message, right after
    the request: the status is not checked and nothing is saved. *)
Theorem account_login_request_fails
    (username password : string) (w : World) srv1 jar1 page key srv2 jar2 e :
  util_req post_key_request (remote w) (cookies w) = (srv1, jar1, Ret page) →
  re_search_post_key page = Some key →
  util_req (login_request username password key) srv1 jar1
  = (srv2, jar2, Raise e) →
  exn_cls e = ReqException →
  AccountClient_login username password w
  = (Raises (Exn LoginError ("Failed to send login request: " +:+ exn_str e)),
     mkWorld srv2 jar2 (files w) (stdin w),
     [Call AccountClient_login_m; Req post_key_request;
      LogMsg ("Post key successfully retrieved: " +:+ key);
      LogMsg "Sending requests to attempt login ...";
      Req (login_request username password key)]).
Proof.
  intros Hpage Hkey Hpost Hcls.
  unfold AccountClient_login, _get_postkey, req. unfold_M.
  fold post_key_request. rewrite Hpage. simpl. rewrite Hkey. simpl.
  fold (login_request username password key). rewrite Hpost. simpl.
  by rewrite Hcls.
Qed.

(** X8. The status check of [AccountClient._login] is not guarded: an
    exception it raises that is no LoginError (the ReqException of a failed
    request, say) leaves [AccountClient._login] and [WebAPIClient.__init__]
    as it is, and the cookies strategies are not tried. *)
Theorem account_status_failure_escapes
    (username password : string) (w : World)
    srv1 jar1 page key srv2 jar2 response e w3 ev3 :
  util_req post_key_request (remote w) new_session = (srv1, jar1, Ret page) →
  re_search_post_key page = Some key →
  util_req (login_request username password key) srv1 jar1
  = (srv2, jar2, Ret response) →
  _check_is_logged (mkWorld srv2 jar2 (files w) (stdin w))
  = (Raises e, w3, ev3) →
  exn_cls e ≠ LoginError →
  WebAPIClient__init__ username password w
  = (Raises e, w3,
     [Call AccountClient_login_m; Req post_key_request;
      LogMsg ("Post key successfully retrieved: " +:+ key);
      LogMsg "Sending requests to attempt login ...";
      Req (login_request username password key);
      LogMsg "Login request sent to Pixiv"] ++ ev3).
Proof.
  intros Hpage Hkey Hpost Hcheck Hcls.
  assert (Haccount :
    AccountClient_login username password (with_cookies new_session w)
    = (Raises e, w3,
       [Call AccountClient_login_m; Req post_key_request;
        LogMsg ("Post key successfully retrieved: " +:+ key);
        LogMsg "Sending requests to attempt login ...";
        Req (login_request username password key);
        LogMsg "Login request sent to Pixiv"] ++ ev3)).
  { unfold AccountClient_login, _get_postkey, req. unfold_M. simpl.
    fold post_key_request. rewrite Hpage. simpl. rewrite Hkey. simpl.
    fold (login_request username password key). rewrite Hpost. simpl.
    by rewrite Hcheck. }
  unfold WebAPIClient__init__, BaseClient__init__. rewrite bind_run.
  cbv beta iota. rewrite bind_run. unfold try_except at 1.
  rewrite Haccount. by rewrite (proj2 (not_caught_LoginError e) Hcls).
Qed.

(** X9. The requests of [WebAPIClient.__init__]: the first fetches the login
    page; the user name and the password are sent at most once, in the login
    request that follows it; every other request is a status check, without
    form data. *)
Theorem login_requests (username password : string) (w : World) :
  ∃ sent,
    requests (events (WebAPIClient__init__ username password w))
    = post_key_request :: sent
    ∧ (Forall (λ r, r = status_request) sent
       ∨ ∃ key rest,
           sent = login_request username password key :: rest
           ∧ Forall (λ r, r = status_request) rest).
Proof.
  destruct (WebAPIClient_init_path username password w) as (x & Hpath & ->).
  assert (Hafter : requests (events (after_login x)) = requests (events x)).
  { unfold after_login. destruct (result x); try done.
    unfold events at 1. simpl. rewrite requests_app. apply app_nil_r. }
  rewrite Hafter.
  destruct (AccountClient_login_tidy username password
              (with_cookies new_session w)) as (_ & _ & _ & Hreq).
  assert (Haccount : ∀ ev1 tail,
    (requests ev1 = [post_key_request]
     ∨ ∃ key, requests ev1
              = [post_key_request; login_request username password key]
         ∨ requests ev1
           = [post_key_request; login_request username password key;
              status_request]) →
    Forall (λ r, r = status_request) tail →
    ∃ sent, requests ev1 ++ tail = post_key_request :: sent
      ∧ (Forall (λ r, r = status_request) sent
         ∨ ∃ key rest, sent = login_request username password key :: rest
             ∧ Forall (λ r, r = status_request) rest)).
  { intros ev1 tail [-> | [key [-> | ->]]] Htail; simpl; eexists;
      (split; [reflexivity|]); [by left | right | right].
    - exists key, tail. done.
    - exists key, (status_request :: tail). split; [done|]. by constructor. }
  inversion Hpath as [w1 ev1 Ha | e w1 ev1 Ha He | e w1 ev1 w2 ev2 Ha He Hk
    | e w1 ev1 e' w2 ev2 Ha He Hk He' | e w1 ev1 e' w2 ev2 Ha He Hk He'];
    subst x; rewrite Ha in Hreq; unfold events in *; simpl in *.
  1,2: rewrite <- (app_nil_r (requests ev1)); by apply Haccount.
  all: pose proof (CookiesClient_login_requests w1) as Hck;
    rewrite Hk in Hck; unfold events in Hck; simpl in Hck.
  all: rewrite requests_app; by apply Haccount.
Qed.

(** X10. What [_save_cookies] writes, [_local_cookies_login] reads back:
    when [pickle.load] undoes [pickle.dump] on the session's jar, a later
    login with the local cookies, whatever jar the new session starts with,
    checks the status with the jar that was saved, and returns when the
    service accepts it, leaving the file as it is. *)
Theorem saved_session_is_restored
    (w : World) (jar' : gmap string string) srv jar status :
  let saved := world (_save_cookies w) in
  pickle_load (pickle_dumps (cookies w)) = Ret (cookies w) →
  util_req status_request (remote w) (cookies w) = (srv, jar, Ret status) →
  is_logged_in status = Ret true →
  _local_cookies_login (with_cookies jar' saved)
  = (Returns tt, mkWorld srv jar (files saved) (stdin w),
     [Call local_cookies_login_m; cookie_file_found; Req status_request;
      Checked jar true; LogMsg "Logged in successfully with local cookies"])
  ∧ files saved !! COOKIES_FILE = Some (pickle_dumps (cookies w)).
Proof.
  intros saved Hload Hreq Hlogged. subst saved. rewrite save_cookies_run.
  unfold world. simpl.
  assert (Hfile : <[COOKIES_FILE := pickle_dumps (cookies w)]> (files w)
                    !! COOKIES_FILE = Some (pickle_dumps (cookies w)))
    by apply lookup_insert_eq.
  split; [|done].
  unfold _local_cookies_login, os_path_exists, load_pickle.
  unfold_M. simpl. rewrite Hfile. simpl. rewrite Hfile, Hload. simpl.
  rewrite check_is_logged_run. simpl. fold status_request.
  rewrite Hreq, Hlogged. done.
Qed.

(** X11. [_local_cookies_login] never writes a file and never reads a line:
    afterwards the files are as before, or as before without the cookies
    file; when it returns the cookies file is there, unchanged; and without
    a cookies file it raises LoginError at once, with no request sent and
    nothing changed. *)
Theorem local_cookies_login_files (w : World) :
  let x := _local_cookies_login w in
  (files (world x) = files w
   ∨ files (world x) = delete COOKIES_FILE (files w))
  ∧ stdin (world x) = stdin w
  ∧ (result x = Returns tt →
     files (world x) = files w ∧ is_Some (files w !! COOKIES_FILE))
  ∧ (files w !! COOKIES_FILE = None →
     x = (Raises cookies_not_found, w, [Call local_cookies_login_m])).
Proof.
  unfold _local_cookies_login, os_path_exists, load_pickle, os_remove.
  unfold_M. simpl.
  destruct (files w !! COOKIES_FILE) as [content|] eqn:Hfile; simpl;
    rewrite ?Hfile; simpl.
  2: { unfold result, world. simpl.
       split; [by left|]. split; [done|]. split; [done|].
       intros _. by destruct w. }
  repeat (sym_step; rewrite ?Hfile; simpl);
    unfold result, world; simpl;
    (split; [auto|]); (split; [done|]); (split; [|done]); try done; eauto.
Qed.

(** X12. Outdated local cookies: when the file unpickles to a jar the service
    does not take for logged in, [_local_cookies_login] removes the file and
    raises LoginError; the stale jar stays in the session. *)
Theorem local_cookies_login_outdated
    (w : World) (content : string) (stale : gmap string string)
    srv jar status :
  files w !! COOKIES_FILE = Some content →
  pickle_load content = Ret stale →
  util_req status_request (remote w) stale = (srv, jar, Ret status) →
  is_logged_in status = Ret false →
  _local_cookies_login w
  = (Raises cookies_login_failed,
     mkWorld srv jar (delete COOKIES_FILE (files w)) (stdin w),
     [Call local_cookies_login_m; cookie_file_found; Req status_request;
      Checked jar false; Remove COOKIES_FILE;
      LogMsg "Removed outdated cookies"]).
Proof.
  intros Hfile Hload Hreq Hlogged.
  unfold _local_cookies_login, os_path_exists, load_pickle, os_remove.
  unfold_M. simpl. rewrite Hfile. simpl. rewrite Hfile, Hload. simpl.
  rewrite check_is_logged_run. simpl. fold status_request.
  rewrite Hreq, Hlogged. simpl. rewrite Hfile. done.
Qed.

Lemma user_cookies_login_unfold (w : World) :
  _user_cookies_login w
  = let '(flow, w', ev) :=
      while_True (S (length (stdin w))) user_cookies_round w in
    (match flow with
     | Returns Return => Returns tt
     | Returns _ => Raises user_cookies_failed
     | Raises e => Raises e
     | OutOfFuel => OutOfFuel
     end, w', Call user_cookies_login_m :: user_cookies_offer :: ev).
Proof.
  unfold _user_cookies_login. rewrite emit_bind_run.
  unfold util_log. rewrite emit_bind_run. rewrite bind_run.
  unfold get_world. cbv beta iota. rewrite bind_run.
  destruct (while_True (S (length (stdin w))) user_cookies_round w)
    as [[[[]|e|] w1] ev1]; unfold_M; simpl; by rewrite ?app_nil_r.
Qed.

(** X13. A user who declines (n or no, in any case, blanks around it) ends
    [_user_cookies_login] with LoginError after one line read: no cookie is
    asked for, no request is sent, the cookies and the files stay. *)
Theorem user_cookies_login_declined (w : World) (line : string) rest :
  stdin w = line :: rest →
  lower (strip line) ∈ ["n"; "no"] →
  _user_cookies_login w
  = (Raises user_cookies_failed, with_stdin rest w,
     [Call user_cookies_login_m; user_cookies_offer; select_prompt]).
Proof.
  intros Hin Hno. rewrite user_cookies_login_unfold. rewrite Hin.
  cbn [length while_True]. rewrite bind_run.
  unfold user_cookies_round at 1. rewrite bind_run. unfold input at 1.
  rewrite Hin. rewrite bool_decide_true by done. done.
Qed.

(** X14. An answer in ASCII characters that is none of y, yes, n, no, in
    any case and with blanks around it, is complained about and otherwise
    ignored: the login goes on as if the line had not been typed. *)
Theorem user_cookies_login_skips_answer (w : World) (line : string) rest :
  stdin w = line :: rest →
  isascii line = true →
  lower (strip line) ∉ ["n"; "no"] →
  lower (strip line) ∉ ["y"; "yes"] →
  let x := _user_cookies_login w in
  let x' := _user_cookies_login (with_stdin rest w) in
  result x = result x'
  ∧ world x = world x'
  ∧ events x
    = Call user_cookies_login_m :: user_cookies_offer :: select_prompt
        :: answer_complaint :: drop 2 (events x').
Proof.
  intros Hin _ Hno Hyes x x'. subst x x'.
  rewrite !user_cookies_login_unfold. rewrite Hin.
  change (stdin (with_stdin rest w)) with rest.
  change (while_True (S (length (line :: rest))) user_cookies_round w)
    with ((flow ← user_cookies_round;
           match flow with
           | Continue => while_True (S (length rest)) user_cookies_round
           | _ => mret flow
           end) w).
  rewrite bind_run.
  assert (Hround : user_cookies_round w
    = (Returns Continue, with_stdin rest w, [select_prompt; answer_complaint])).
  { unfold user_cookies_round. rewrite bind_run. unfold input at 1.
    rewrite Hin. rewrite bool_decide_false by done.
    rewrite bool_decide_false by done. done. }
  rewrite Hround.
  destruct (while_True (S (length rest)) user_cookies_round
              (with_stdin rest w)) as [[r w'] ev].
  done.
Qed.

(** X15. At the end of the input [input] raises EOFError, which nothing in
    the cascade catches: [_user_cookies_login] lets it through, and so does
    [CookiesClient._login] when the local cookies have failed, instead of
    raising LoginError. *)
Theorem user_cookies_login_end_of_input (w : World) :
  stdin w = [] →
  _user_cookies_login w
  = (Raises end_of_input, w,
     [Call user_cookies_login_m; user_cookies_offer; select_prompt])
  ∧ (∀ e w1 ev1,
       _local_cookies_login w = (Raises e, w1, ev1) →
       exn_cls e = LoginError →
       CookiesClient_login w
       = (Raises end_of_input, w1,
          Call CookiesClient_login_m
            :: ev1 ++ [Call user_cookies_login_m; user_cookies_offer;
                       select_prompt])).
Proof.
  intros Hin.
  assert (Huser : ∀ w', stdin w' = [] →
    _user_cookies_login w'
    = (Raises end_of_input, w',
       [Call user_cookies_login_m; user_cookies_offer; select_prompt])).
  { intros w' Hin'. rewrite user_cookies_login_unfold. rewrite Hin'.
    cbn [length while_True]. rewrite bind_run.
    unfold user_cookies_round at 1. rewrite bind_run. unfold input at 1.
    by rewrite Hin'. }
  split; [by apply Huser|].
  intros e w1 ev1 Hl He.
  destruct (local_cookies_login_quiet w) as (Hstdin & _).
  rewrite Hl in Hstdin. unfold world in Hstdin. simpl in Hstdin.
  unfold CookiesClient_login. rewrite emit_bind_run.
  unfold try_except at 1. rewrite Hl.
  rewrite (proj2 (caught_LoginError e) He).
  unfold try_except at 1. rewrite (Huser w1) by congruence.
  done.
Qed.

(** X16. A fresh login is persisted, a login that fails is not: when
    [AccountClient._login] or [_user_cookies_login] returns, the cookies file
    holds the pickle of the jar the session then has, and no other file has
    changed; when it fails, that is raises LoginError, the files are as they
    were. *)
Theorem fresh_login_persists (username password : string) (w : World) :
  let account := AccountClient_login username password w in
  let typed := _user_cookies_login w in
  (result account = Returns tt →
   files (world account)
   = <[COOKIES_FILE := pickle_dumps (cookies (world account))]> (files w))
  ∧ (fails_with_LoginError (result account) = true →
     files (world account) = files w)
  ∧ (result typed = Returns tt →
     files (world typed)
     = <[COOKIES_FILE := pickle_dumps (cookies (world typed))]> (files w))
  ∧ (fails_with_LoginError (result typed) = true →
     files (world typed) = files w).
Proof.
  intros account typed.
  destruct (AccountClient_login_tidy username password w) as (_ & Hs & Hu & _).
  destruct (user_cookies_login_tidy w) as [_ _ Hs' Hu'].
  fold account in Hs, Hu. fold typed in Hs', Hu'.
  repeat split; try done.
  - intros Hfail. apply Hu. intros Hret. by rewrite Hret in Hfail.
  - intros Hfail. apply Hu'. intros Hret. by rewrite Hret in Hfail.
Qed.

(** X17. The loop of [_user_cookies_login] ends: every round reads a line or
    leaves the loop, so the rounds allotted are never used up, more rounds
    change nothing, and what is left of the input is an end piece of what
    was there. *)
Theorem user_cookies_login_reads (w : World) :
  let x := _user_cookies_login w in
  result x ≠ OutOfFuel
  ∧ stdin (world x) `suffix_of` stdin w
  ∧ (∀ fuel, (length (stdin w) < fuel)%nat →
       while_True fuel user_cookies_round w
       = while_True (S (length (stdin w))) user_cookies_round w).
Proof.
  intros x. split; [|split].
  - by destruct (user_cookies_login_run w) as (_ & [Hends _ _ _]).
  - by destruct (user_cookies_login_tidy w) as [_ Hs _ _].
  - intros fuel Hfuel. apply user_cookies_loop_fuel; lia.
Qed.

(** *** More on the strings the client takes apart *)

(** [sep.join(l)] *)
Fixpoint join (sep : ascii) (l : list string) : string :=
  match l with
  | [] => EmptyString
  | s :: l' =>
      match l' with
      | [] => s
      | _ :: _ => s +:+ String sep (join sep l')
      end
  end.

(** The entry of a cookie string for a name and a value. *)
Definition entry_of (p : string * string) : string :=
  p.1 +:+ String "=" p.2.

Lemma app_String (c : ascii) (s t : string) :
  String c s +:+ t = String c (s +:+ t).
Proof. reflexivity. Qed.

Lemma app_Empty (t : string) : EmptyString +:+ t = t.
Proof. reflexivity. Qed.

Lemma contains_app (c : ascii) (s t : string) :
  contains c (s +:+ t) = contains c s || contains c t.
Proof.
  induction s as [|c' s IH]; [done|].
  rewrite app_String. simpl. rewrite IH. by rewrite orb_assoc.
Qed.

Lemma split_nonempty (sep : ascii) (s : string) : split sep s ≠ [].
Proof.
  destruct s as [|c s]; simpl; [done|].
  destruct (decide (c = sep)); [done|]. by destruct (split sep s).
Qed.

Lemma split_no_sep (sep : ascii) (s : string) :
  contains sep s = false → split sep s = [s].
Proof.
  induction s as [|c s IH]; simpl; [done|].
  intros [Hc Hs]%orb_false_elim. apply bool_decide_eq_false in Hc.
  rewrite decide_False by done. by rewrite (IH Hs).
Qed.

Lemma split_app_sep (sep : ascii) (s t : string) :
  contains sep s = false →
  split sep (s +:+ String sep t) = s :: split sep t.
Proof.
  induction s as [|c s IH]; intros Hs.
  - rewrite app_Empty. simpl. by rewrite decide_True.
  - simpl in Hs. apply orb_false_elim in Hs as [Hc Hs].
    apply bool_decide_eq_false in Hc.
    rewrite app_String. simpl. rewrite decide_False by done.
    by rewrite (IH Hs).
Qed.

Lemma split_join (sep : ascii) (l : list string) :
  l ≠ [] → Forall (λ s, contains sep s = false) l →
  split sep (join sep l) = l.
Proof.
  induction l as [|s l IH]; intros Hne Hall; [done|].
  apply Forall_cons in Hall as [Hs Hl].
  destruct l as [|s' l]; [by apply split_no_sep|].
  change (join sep (s :: s' :: l)) with (s +:+ String sep (join sep (s' :: l))).
  rewrite (split_app_sep _ _ _ Hs). by rewrite IH.
Qed.

Lemma split_app_sep_end (sep : ascii) (s : string) :
  split sep (s +:+ String sep EmptyString) = split sep s ++ [EmptyString].
Proof.
  induction s as [|c s IH].
  - rewrite app_Empty. simpl. by rewrite decide_True.
  - rewrite app_String. simpl. destruct (decide (c = sep)).
    + by rewrite IH.
    + rewrite IH. pose proof (split_nonempty sep s).
      by destruct (split sep s).
Qed.

Lemma split1_pair (sep : ascii) (name value : string) :
  contains sep name = false →
  split1 sep (name +:+ String sep value) = [name; value].
Proof.
  induction name as [|c name IH]; intros Hn.
  - rewrite app_Empty. simpl. by rewrite decide_True.
  - simpl in Hn. apply orb_false_elim in Hn as [Hc Hn].
    apply bool_decide_eq_false in Hc.
    rewrite app_String. simpl. rewrite decide_False by done.
    by rewrite (IH Hn).
Qed.

Lemma strip_prefix_app (p r : string) : strip_prefix p (p +:+ r) = Some r.
Proof.
  induction p as [|c p IH]; [by destruct r|].
  rewrite app_String. simpl. by rewrite decide_True.
Qed.

Lemma strip_prefix_Some (p s r : string) :
  strip_prefix p s = Some r → s = p +:+ r.
Proof.
  revert s. induction p as [|c p IH]; intros s H.
  - destruct s; simpl in H; by injection H as <-.
  - destruct s as [|c' s]; simpl in H; [done|].
    destruct (decide (c = c')) as [->|]; [|done].
    rewrite app_String. f_equal. by apply IH.
Qed.

(** A string without a double quote and without a newline. *)
Definition one_line_unquoted (g : string) : Prop :=
  contains dquote g = false ∧ contains newline g = false.

Lemma shortest_to_quote_app (g post : string) :
  one_line_unquoted g →
  shortest_to_quote (g +:+ String dquote post) = Some g.
Proof.
  intros [Hq Hn]. induction g as [|c g IH].
  - rewrite app_Empty. reflexivity.
  - simpl in Hq, Hn.
    apply orb_false_elim in Hq as [Hcq Hq].
    apply orb_false_elim in Hn as [Hcn Hn].
    apply bool_decide_eq_false in Hcq. apply bool_decide_eq_false in Hcn.
    rewrite app_String. simpl. rewrite !decide_False by done.
    by rewrite (IH Hq Hn).
Qed.

Lemma shortest_to_quote_Some (s g : string) :
  shortest_to_quote s = Some g →
  ∃ post, s = g +:+ String dquote post ∧ one_line_unquoted g.
Proof.
  revert g. induction s as [|c s IH]; intros g H; simpl in H; [done|].
  destruct (decide (c = dquote)) as [->|Hq].
  { injection H as <-. by exists s. }
  destruct (decide (c = newline)) as [|Hn]; [done|].
  destruct (shortest_to_quote s) as [g'|] eqn:E; [|done].
  injection H as <-. destruct (IH g' eq_refl) as (post & -> & Hq' & Hn').
  exists post. split; [done|].
  split; simpl; rewrite bool_decide_false by done; done.
Qed.

(** X5. The post key [_get_postkey] finds is what stands, on one line,
    between the text post_key, quote, blank, value=, quote and the next
    quote: whatever is found sits there in the page; a page that holds such
    a place has a key found; and the key of a page that begins with the
    place is the one found. *)
Theorem re_search_post_key_finds :
  (∀ text g, re_search_post_key text = Some g →
     ∃ pre post,
       text = pre +:+ post_key_pattern +:+ g +:+ String dquote post
       ∧ one_line_unquoted g)
  ∧ (∀ pre g post, one_line_unquoted g →
       is_Some (re_search_post_key
                  (pre +:+ post_key_pattern +:+ g +:+ String dquote post)))
  ∧ (∀ g post, one_line_unquoted g →
       re_search_post_key (post_key_pattern +:+ g +:+ String dquote post)
       = Some g).
Proof.
  assert (Hstep : ∀ text r,
    strip_prefix post_key_pattern text ≫= shortest_to_quote = Some r →
    re_search_post_key text = Some r).
  { intros text r H. destruct text; cbn [re_search_post_key]; by rewrite H. }
  assert (Hhere : ∀ g post, one_line_unquoted g →
    re_search_post_key (post_key_pattern +:+ g +:+ String dquote post)
    = Some g).
  { intros g post Hg. apply Hstep. rewrite strip_prefix_app.
    by apply shortest_to_quote_app. }
  split; [|split]; [| |exact Hhere].
  - intros text. induction text as [|c text IH]; intros g H;
      cbn [re_search_post_key] in H;
      destruct (strip_prefix post_key_pattern _ ≫= shortest_to_quote)
        as [g'|] eqn:E; try done.
    + injection H as <-.
      destruct (strip_prefix post_key_pattern (String c text)) as [r|] eqn:Er;
        [|done].
      apply strip_prefix_Some in Er.
      apply shortest_to_quote_Some in E as (post & -> & Hg).
      exists EmptyString, post. by rewrite app_Empty.
    + destruct (IH g H) as (pre & post & -> & Hg).
      exists (String c pre), post. by rewrite app_String.
  - intros pre g post Hg. induction pre as [|c pre IH].
    + rewrite app_Empty. rewrite (Hhere g post Hg). eauto.
    + rewrite app_String. cbn [re_search_post_key].
      destruct (strip_prefix post_key_pattern _ ≫= shortest_to_quote);
        [eauto | exact IH].
Qed.

(** A name with the value the jar stores for it. *)
Definition jar_entry (p : string * string) : string * string :=
  (p.1, set_cookie_value p.2).

Lemma set_entries_pairs (pairs : list (string * string))
    (jar : gmap string string) :
  Forall (λ p, contains "=" p.1 = false) pairs →
  set_entries (entry_of <$> pairs) jar
  = (true, foldl (λ j p, <[p.1 := p.2]> j) jar (jar_entry <$> pairs)).
Proof.
  revert jar. induction pairs as [|[name value] pairs IH]; intros jar Hall;
    [done|].
  apply Forall_cons in Hall as [Hn Hall]. simpl in Hn.
  rewrite !fmap_cons. simpl. unfold entry_of at 1. simpl.
  rewrite (split1_pair _ _ _ Hn). by rewrite IH.
Qed.

Lemma remove_escaped_quotes_none (s : string) :
  contains backslash s = false → remove_escaped_quotes s = s.
Proof.
  induction s as [|a s IH]; [done|]. intros Hs. simpl in Hs.
  apply orb_false_elim in Hs as [Ha Hs].
  destruct s as [|b s]; [done|].
  change (remove_escaped_quotes (String a (String b s)))
    with (if bool_decide (a = backslash) && bool_decide (b = dquote)
          then remove_escaped_quotes s
          else String a (remove_escaped_quotes (String b s))).
  rewrite Ha. cbn [andb]. by rewrite (IH Hs).
Qed.

Lemma set_cookie_value_plain (value : string) :
  startswith dquote value && endswith dquote value = false
  ∨ contains backslash value = false →
  set_cookie_value value = value.
Proof.
  unfold set_cookie_value. intros [-> | Hb]; [done|].
  destruct (_ && _); [by apply remove_escaped_quotes_none | done].
Qed.

Lemma foldl_insert_list_to_map (pairs : list (string * string)) :
  foldl (λ j p, <[p.1 := p.2]> j) (∅ : gmap string string) pairs
  = list_to_map (reverse pairs).
Proof.
  induction pairs as [|[name value] pairs IH] using rev_ind; [done|].
  rewrite foldl_snoc, IH, reverse_snoc. reflexivity.
Qed.

(** X18. A cookie string put together from names and values (no equals sign
    in a name, no semicolon in a name or a value) is taken apart into these
    very entries: whatever the session held before, its jar then holds each
    name with the value the jar stores for it, the last one given for a name
    given twice.  The jar stores a value as it is, unless it starts and ends
    with a double quote: then every backslash that a double quote follows is
    dropped together with that quote. *)
Theorem change_to_new_cookies_well_formed
    (pairs : list (string * string)) (w : World) :
  pairs ≠ [] →
  Forall (λ p, contains "=" p.1 = false ∧ contains ";" p.1 = false
               ∧ contains ";" p.2 = false) pairs →
  _change_to_new_cookies (join ";" (entry_of <$> pairs)) w
  = (Returns tt,
     with_cookies (list_to_map (reverse (jar_entry <$> pairs))) w, [])
  ∧ (Forall (λ p, startswith dquote p.2 && endswith dquote p.2 = false
                  ∨ contains backslash p.2 = false) pairs →
     jar_entry <$> pairs = pairs).
Proof.
  intros Hne Hall. split.
  - rewrite change_to_new_cookies_run.
    rewrite split_join.
    + rewrite set_entries_pairs.
      * simpl. by rewrite foldl_insert_list_to_map.
      * eapply Forall_impl; [exact Hall|]. by intros p (? & _).
    + by destruct pairs.
    + apply Forall_fmap. eapply Forall_impl; [exact Hall|].
      intros [name value] (_ & Hn & Hv). simpl in *. unfold entry_of. simpl.
      rewrite contains_app. simpl. by rewrite Hn, Hv.
  - intros Hplain. clear Hne Hall.
    induction pairs as [|[name value] pairs IH]; [done|].
    apply Forall_cons in Hplain as [Hv Hplain]. simpl in Hv.
    rewrite fmap_cons, (IH Hplain). unfold jar_entry. simpl.
    by rewrite (set_cookie_value_plain _ Hv).
Qed.

(** X19. A cookie string that ends in a semicolon is refused, and so is the
    empty one: the entry after the last semicolon is empty and has no equals
    sign.  The old cookies are gone all the same. *)
Theorem change_to_new_cookies_trailing_semicolon
    (user_cookies : string) (w : World) :
  result (_change_to_new_cookies (user_cookies +:+ ";") w)
  = Raises invalid_cookies
  ∧ _change_to_new_cookies EmptyString w
    = (Raises invalid_cookies, with_cookies ∅ w, []).
Proof.
  split.
  - rewrite change_to_new_cookies_run. unfold result. simpl.
    rewrite set_entries_ok, split_app_sep_end, forallb_app. simpl.
    by rewrite andb_false_r.
  - by rewrite change_to_new_cookies_run.
Qed.

End Client.

Arguments World Srv : clear implicits.
Arguments M Srv A : clear implicits.

(** *** The client against a small service *)

Definition example_login_page : string :=
  "<input name=" +:+ String dquote ("post_key" +:+ String dquote
    (" value=" +:+ String dquote ("k3y" +:+ String dquote ">"))).

(** The service accepts the password secret, for which it hands out the session
    id fresh; it takes the session ids fresh and stored for logged in. *)
Definition example_util_req (r : Request) (srv : unit)
    (jar : gmap string string) : unit * gmap string string * Result string :=
  if decide (req_url r = _post_key_url) then (tt, jar, Ret example_login_page)
  else if decide (req_url r = _login_url) then
    (tt,
     if decide (("password", "secret") ∈ req_data r)
     then <["PHPSESSID" := "fresh"]> jar else jar,
     Ret "")
  else
    (tt, jar,
     Ret (if decide (jar !! "PHPSESSID" = Some "fresh"
                     ∨ jar !! "PHPSESSID" = Some "stored")
          then "true" else "false")).

Definition example_is_logged_in (body : string) : Result bool :=
  Ret (bool_decide (body = "true")).

(** A toy pickle: the file holds the session id.  As with [pickle.load], an
    empty file and a file that holds nothing but an opening parenthesis (the
    MARK opcode, with no pickle after it) raise EOFError (ran out of input). *)
Definition example_pickle_dumps (jar : gmap string string) : string :=
  default "none" (jar !! "PHPSESSID").

Definition example_pickle_load (content : string)
  : Result (gmap string string) :=
  if decide (content = "" ∨ content = "(")
  then Raise (Exn EOFError "Ran out of input")
  else if decide (content = "garbage")
  then Raise (Exn UnpicklingError "pickle data was truncated")
  else Ret {["PHPSESSID" := content]}.

Definition example_world (fs : gmap string string) (lines : list string)
  : World unit :=
  mkWorld tt ∅ fs lines.

Definition example_account : string → string → M unit unit :=
  AccountClient_login example_util_req example_is_logged_in
    example_pickle_dumps "cookies".

Definition example_local : M unit unit :=
  _local_cookies_login example_util_req example_is_logged_in
    example_pickle_load "cookies".

Definition example_user : M unit unit :=
  _user_cookies_login example_util_req example_is_logged_in
    example_pickle_dumps "cookies".

Definition example_cookies_login : M unit unit :=
  CookiesClient_login example_util_req example_is_logged_in
    example_pickle_dumps example_pickle_load "cookies".

Definition example_init : string → string → M unit unit :=
  WebAPIClient__init__ example_util_req example_is_logged_in
    example_pickle_dumps example_pickle_load ∅ "cookies" (λ _, Ret tt).

(** A no-break space and a next-line control are blanks to [str.strip]. *)
Example strip_lower_example :
  lower (strip (String (Ascii.ascii_of_nat 160)
                  (" No" +:+ String (Ascii.ascii_of_nat 133) " ")))
  = "no".
Proof. reflexivity. Qed.

Example re_search_post_key_example :
  re_search_post_key example_login_page = Some "k3y".
Proof. reflexivity. Qed.

(** The account is rejected, the stored session is stale, and the user types
    a session id the service accepts: the three strategies in turn. *)
Example example_init_interactive :
  let run := example_init "user" "wrong"
               (example_world {["cookies" := "stale"]}
                  ["maybe"; " Y "; "PHPSESSID=stored"]) in
  result run = Returns tt
  ∧ attempted (events run)
    = [DirectCredentials; StoredSession; InteractiveSession]
  ∧ saves (events run) = [{["PHPSESSID" := "stored"]}]
  ∧ files (world run) !! "cookies" = Some "stored".
Proof. vm_compute. repeat split. Qed.

(** The account is accepted while a good stored session and a user ready to
    type are there too: neither is touched.  With the wrong password the
    stored session is tried next, and ends the cascade. *)
Lemma login_cascade_short_circuit_witness :
  let w := example_world {["cookies" := "stored"]} ["y"; "PHPSESSID=stored"] in
  let init := example_init "user" "secret" w in
  let rejected := example_init "user" "wrong" w in
  (result (example_account "user" "secret" w) = Returns tt
   ∧ calls (events init) = [AccountClient_login_m; DefaultAPIClient_init_m]
   ∧ prompts (events init) = [])
  ∧ (result (example_local w) = Returns tt
     ∧ calls (events (example_cookies_login w))
       = [CookiesClient_login_m; local_cookies_login_m]
     ∧ prompts (events (example_cookies_login w)) = [])
  ∧ attempted (events init) = [DirectCredentials]
  ∧ attempted (events rejected) = [DirectCredentials; StoredSession].
Proof.
  intros w init rejected.
  destruct (login_cascade_short_circuit example_util_req example_is_logged_in
              example_pickle_dumps example_pickle_load ∅ "cookies"
              (λ _, Ret tt) "user" "secret" w)
    as (Haccount & Hlocal & _ & _ & Hattempted).
  destruct (login_cascade_short_circuit example_util_req example_is_logged_in
              example_pickle_dumps example_pickle_load ∅ "cookies"
              (λ _, Ret tt) "user" "wrong" w)
    as (_ & _ & _ & _ & Hrejected).
  assert (Ha : result (example_account "user" "secret" w) = Returns tt)
    by (vm_compute; reflexivity).
  assert (Hl : result (example_local w) = Returns tt)
    by (vm_compute; reflexivity).
  split; [split; [assumption | apply (Haccount Ha)]|].
  split; [split; [assumption | apply (Hlocal Hl)]|].
  split; [exact Hattempted | exact Hrejected].
Defined.

Lemma persisted_only_after_verification_witness :
  let init := example_init "user" "secret" (example_world ∅ []) in
  result init = Returns tt
  ∧ ∃ ev, events init = ev ++ [Call DefaultAPIClient_init_m]
          ∧ ∀ acc, verified_after acc ev = Some (cookies (world init)).
Proof.
  intros init.
  assert (Hret : result init = Returns tt) by (vm_compute; reflexivity).
  split; [assumption|].
  apply (persisted_only_after_verification example_util_req
           example_is_logged_in example_pickle_dumps example_pickle_load ∅
           "cookies" (λ _, Ret tt) "user" "secret" (example_world ∅ [])).
  exact Hret.
Defined.

(** The account is rejected, there is no cookies file, and the user declines. *)
Lemma login_cascade_exhausted_witness :
  let w := example_world ∅ ["n"] in
  let init := example_init "user" "wrong" w in
  let account := example_account "user" "wrong" w in
  let stored := example_local (world account) in
  let typed := example_user (world stored) in
  (result account = Raises (Exn LoginError "Login Request is not accepted")
   ∧ result stored = Raises cookies_not_found
   ∧ result typed = Raises (Exn LoginError "Failed login with user cookies"))
  ∧ init = (Raises web_client_failed, world typed,
            events account ++ Call CookiesClient_login_m
              :: events stored ++ events typed)
  ∧ saves (events init) = []
  ∧ calls (events init)
    = [AccountClient_login_m; CookiesClient_login_m;
       local_cookies_login_m; user_cookies_login_m].
Proof.
  intros w init account stored typed.
  split; [repeat split; vm_compute; reflexivity|].
  apply (proj1 (login_cascade_exhausted example_util_req example_is_logged_in
                  example_pickle_dumps example_pickle_load ∅ "cookies"
                  (λ _, Ret tt) "user" "wrong" w)
           (Exn LoginError "Login Request is not accepted")
           (world account) (events account)
           cookies_not_found (world stored) (events stored)
           (Exn LoginError "Failed login with user cookies")
           (world typed) (events typed));
    vm_compute; reflexivity.
Defined.

(** C7 as the specification states it fails.  The account is rejected,
    there is no cookies file, and the input is at its end when the user is
    asked: each of the three strategies is attempted and fails, the last with
    the EOFError of [input], and this EOFError, not the composite LoginError,
    is what [WebAPIClient.__init__] raises. *)
Lemma login_cascade_exhausted_counterexample :
  let w := example_world ∅ [] in
  let init := example_init "user" "wrong" w in
  let account := example_account "user" "wrong" w in
  let stored := example_local (world account) in
  let typed := example_user (world stored) in
  result account = Raises (Exn LoginError "Login Request is not accepted")
  ∧ result stored = Raises cookies_not_found
  ∧ result typed = Raises (Exn EOFError "EOF when reading a line")
  ∧ attempted (events init)
    = [DirectCredentials; StoredSession; InteractiveSession]
  ∧ result init = Raises (Exn EOFError "EOF when reading a line")
  ∧ result init ≠ Raises web_client_failed.
Proof. vm_compute. repeat split. discriminate. Qed.

(** C8 as the specification states it fails.  With a good stored session and
    an accepted password, a caller who wants the stored session tried first
    cannot have it: the specified authenticator, given this order, tries the
    stored session and nothing else, and ends with the stored session, while
    [WebAPIClient.__init__], which takes no order, tries the account and
    nothing else, and ends with a fresh session. *)
Lemma login_order_counterexample :
  let w := example_world {["cookies" := "stored"]} [] in
  let init := example_init "user" "secret" w in
  Authenticator_login_as_specified example_util_req example_is_logged_in
    example_pickle_dumps example_pickle_load "cookies" "user" "secret"
    [StoredSession; DirectCredentials] w
  = ([StoredSession], Some {["PHPSESSID" := "stored"]})
  ∧ attempted (events init) = [DirectCredentials]
  ∧ result init = Returns tt
  ∧ cookies (world init) = {["PHPSESSID" := "fresh"]}.
Proof. vm_compute. repeat split. Qed.

(** A cookies file of one garbage byte, an opening parenthesis: [pickle.load]
    raises EOFError, which is no UnpicklingError, and the file stays. *)
Lemma corrupted_cookies_file_witness :
  let w := example_world {["cookies" := "("]} [] in
  let eof := Exn EOFError "Ran out of input" in
  (files w !! "cookies" = Some "("
   ∧ example_pickle_load "(" = Raise eof
   ∧ exn_cls eof ≠ UnpicklingError)
  ∧ example_local w
    = (Raises eof, w,
       [Call local_cookies_login_m;
        LogMsg ("Cookie file found: " +:+ "cookies"
                +:+ ", attempt to login with local cookie")])
  ∧ files w !! "cookies" = Some "(".
Proof.
  intros w eof.
  assert (Hfile : files w !! "cookies" = Some "(") by reflexivity.
  assert (Hload : example_pickle_load "(" = Raise eof) by reflexivity.
  assert (Hcls : exn_cls eof ≠ UnpicklingError) by done.
  split; [done|].
  apply (proj2 (corrupted_cookies_file example_util_req example_is_logged_in
                  example_pickle_load "cookies" w "(" eof Hfile Hload) Hcls).
Defined.

(** C4 as the specification states it fails: after the malformed a=1;bad the
    session cookie that was there before the call is gone, and a=1 is set. *)
Lemma change_to_new_cookies_counterexample :
  let w := mkWorld tt {["PHPSESSID" := "old"]} ∅ [] in
  let run := _change_to_new_cookies "a=1;bad" w in
  result run = Raises invalid_cookies
  ∧ cookies w !! "PHPSESSID" = Some "old"
  ∧ cookies (world run) !! "PHPSESSID" = None
  ∧ cookies (world run) !! "a" = Some "1"
  ∧ cookies (world run) ≠ cookies w.
Proof.
  intros w run. subst run. rewrite change_to_new_cookies_run.
  repeat split. intros Heq.
  apply (f_equal (λ jar : gmap string string, jar !! "a")) in Heq.
  discriminate Heq.
Qed.

Lemma change_to_new_cookies_parse_witness :
  let w := mkWorld tt {["PHPSESSID" := "old"]} ∅ [] in
  let run := _change_to_new_cookies "a=1;b=2" w in
  result run = Returns tt
  ∧ cookies (world run) = <["b" := "2"]> (<["a" := "1"]> ∅).
Proof.
  intros w run.
  destruct (change_to_new_cookies_parse "a=1;b=2" w) as (_ & _ & _ & Hok & _).
  apply Hok. reflexivity.
Defined.

(** *** More runs against the small service *)

(** The small service with one address out of reach. *)
Definition example_failing_req (failing_url : string) (r : Request)
    (srv : unit) (jar : gmap string string)
  : unit * gmap string string * Result string :=
  if decide (req_url r = failing_url)
  then (tt, jar, Raise (Exn ReqException "connection refused"))
  else example_util_req r srv jar.

Definition connection_refused : exn := Exn ReqException "connection refused".

Lemma account_login_no_post_key_witness :
  let req := example_failing_req _post_key_url in
  req post_key_request tt ∅ = (tt, ∅, Raise connection_refused)
  ∧ AccountClient_login req example_is_logged_in example_pickle_dumps
      "cookies" "user" "secret" (example_world ∅ [])
    = (Raises (Exn LoginError
                 ("Failed to find post key: " +:+ "connection refused")),
       mkWorld tt ∅ ∅ [],
       [Call AccountClient_login_m; Req post_key_request]).
Proof.
  intros req. split; [reflexivity|].
  apply (account_login_no_post_key req example_is_logged_in
           example_pickle_dumps "cookies" "user" "secret"
           (example_world ∅ []) tt ∅ (Raise connection_refused)
           "connection refused");
    [reflexivity | split; reflexivity].
Defined.

Lemma account_login_request_fails_witness :
  let req := example_failing_req _login_url in
  (req post_key_request tt ∅ = (tt, ∅, Ret example_login_page)
   ∧ re_search_post_key example_login_page = Some "k3y"
   ∧ req (login_request "user" "secret" "k3y") tt ∅
     = (tt, ∅, Raise connection_refused))
  ∧ result (AccountClient_login req example_is_logged_in example_pickle_dumps
              "cookies" "user" "secret" (example_world ∅ []))
    = Raises (Exn LoginError
                ("Failed to send login request: " +:+ "connection refused")).
Proof.
  intros req. split; [repeat split; reflexivity|].
  rewrite (account_login_request_fails req example_is_logged_in
             example_pickle_dumps "cookies" "user" "secret"
             (example_world ∅ []) tt ∅ example_login_page "k3y" tt ∅
             connection_refused);
    reflexivity.
Defined.

Lemma account_status_failure_escapes_witness :
  let req := example_failing_req _login_check_url in
  let accepted : World unit := mkWorld tt {["PHPSESSID" := "fresh"]} ∅ ["n"] in
  (_check_is_logged req example_is_logged_in accepted
   = (Raises connection_refused, accepted, [Req status_request])
   ∧ exn_cls connection_refused ≠ LoginError)
  ∧ result (WebAPIClient__init__ req example_is_logged_in
              example_pickle_dumps example_pickle_load ∅ "cookies"
              (λ _, Ret tt) "user" "secret" (example_world ∅ ["n"]))
    = Raises connection_refused.
Proof.
  intros req accepted.
  assert (Hcheck : _check_is_logged req example_is_logged_in accepted
                   = (Raises connection_refused, accepted,
                      [Req status_request])) by reflexivity.
  assert (Hcls : exn_cls connection_refused ≠ LoginError) by done.
  split; [done|].
  rewrite (account_status_failure_escapes req example_is_logged_in
             example_pickle_dumps example_pickle_load ∅ "cookies"
             (λ _, Ret tt) "user" "secret" (example_world ∅ ["n"])
             tt ∅ example_login_page "k3y" tt {["PHPSESSID" := "fresh"]} ""
             connection_refused accepted [Req status_request]);
    try reflexivity; assumption.
Defined.

Lemma saved_session_is_restored_witness :
  let fresh : gmap string string := {["PHPSESSID" := "fresh"]} in
  let w : World unit := mkWorld tt fresh ∅ [] in
  let saved := world (_save_cookies example_pickle_dumps "cookies" w) in
  (example_pickle_load (example_pickle_dumps fresh) = Ret fresh
   ∧ example_util_req status_request tt fresh = (tt, fresh, Ret "true")
   ∧ example_is_logged_in "true" = Ret true)
  ∧ result (example_local (with_cookies ∅ saved)) = Returns tt
  ∧ cookies (world (example_local (with_cookies ∅ saved))) = fresh.
Proof.
  intros fresh w saved. split; [repeat split; reflexivity|].
  destruct (saved_session_is_restored example_util_req example_is_logged_in
              example_pickle_dumps example_pickle_load "cookies" w ∅
              tt fresh "true" eq_refl eq_refl eq_refl) as [Hrun _].
  unfold example_local. subst saved. rewrite Hrun. split; reflexivity.
Defined.

Lemma local_cookies_login_outdated_witness :
  let stale : gmap string string := {["PHPSESSID" := "stale"]} in
  let w := example_world {["cookies" := "stale"]} [] in
  (files w !! "cookies" = Some "stale"
   ∧ example_pickle_load "stale" = Ret stale
   ∧ example_util_req status_request tt stale = (tt, stale, Ret "false")
   ∧ example_is_logged_in "false" = Ret false)
  ∧ result (example_local w) = Raises cookies_login_failed
  ∧ files (world (example_local w)) !! "cookies" = None
  ∧ cookies (world (example_local w)) = stale.
Proof.
  intros stale w. split; [repeat split; reflexivity|].
  unfold example_local.
  rewrite (local_cookies_login_outdated example_util_req example_is_logged_in
             example_pickle_load "cookies" w "stale" stale tt stale "false");
    repeat split; reflexivity.
Defined.

Lemma user_cookies_login_declined_witness :
  let w := example_world ∅ [" No "; "y"] in
  (stdin w = [" No "; "y"] ∧ lower (strip " No ") ∈ ["n"; "no"])
  ∧ example_user w
    = (Raises user_cookies_failed, with_stdin ["y"] w,
       [Call user_cookies_login_m; user_cookies_offer; select_prompt]).
Proof.
  intros w.
  assert (Hno : lower (strip " No ") ∈ ["n"; "no"]) by (right; left).
  split; [done|].
  apply (user_cookies_login_declined example_util_req example_is_logged_in
           example_pickle_dumps "cookies" w " No " ["y"] eq_refl Hno).
Defined.

Lemma user_cookies_login_skips_answer_witness :
  let w := example_world ∅ ["maybe"; "n"] in
  (stdin w = ["maybe"; "n"]
   ∧ isascii "maybe" = true
   ∧ (lower (strip "maybe") ∉ ["n"; "no"])
   ∧ (lower (strip "maybe") ∉ ["y"; "yes"]))
  ∧ result (example_user w) = result (example_user (with_stdin ["n"] w))
  ∧ world (example_user w) = world (example_user (with_stdin ["n"] w)).
Proof.
  intros w.
  assert (Hno : lower (strip "maybe") ∉ ["n"; "no"]) by compute_done.
  assert (Hyes : lower (strip "maybe") ∉ ["y"; "yes"]) by compute_done.
  split; [done|].
  destruct (user_cookies_login_skips_answer example_util_req
              example_is_logged_in example_pickle_dumps "cookies" w
              "maybe" ["n"] eq_refl eq_refl Hno Hyes) as (Hr & Hw & _).
  by split.
Defined.

Lemma user_cookies_login_end_of_input_witness :
  let w := example_world ∅ [] in
  stdin w = []
  ∧ example_user w
    = (Raises end_of_input, w,
       [Call user_cookies_login_m; user_cookies_offer; select_prompt])
  ∧ result (example_cookies_login w) = Raises end_of_input.
Proof.
  intros w. split; [reflexivity|].
  destruct (user_cookies_login_end_of_input example_util_req
              example_is_logged_in example_pickle_dumps example_pickle_load
              "cookies" w eq_refl) as [Huser Hcascade].
  split; [exact Huser|].
  unfold example_cookies_login.
  rewrite (Hcascade cookies_not_found w [Call local_cookies_login_m]);
    reflexivity.
Defined.

Lemma change_to_new_cookies_well_formed_witness :
  let quoted := String dquote ("x" +:+ String backslash (String dquote
                  ("y" +:+ String dquote EmptyString))) in
  let pairs := [("a", "1"); ("b", "x=y"); ("q", quoted); ("a", "3")] in
  let w : World unit := mkWorld tt {["PHPSESSID" := "old"]} ∅ [] in
  (pairs ≠ []
   ∧ Forall (λ p, contains "=" p.1 = false ∧ contains ";" p.1 = false
                  ∧ contains ";" p.2 = false) pairs)
  ∧ set_cookie_value quoted = String dquote ("xy" +:+ String dquote EmptyString)
  ∧ _change_to_new_cookies (join ";" (entry_of <$> pairs)) w
    = (Returns tt,
       with_cookies (list_to_map (reverse (jar_entry <$> pairs))) w, []).
Proof.
  intros quoted pairs w.
  assert (Hne : pairs ≠ []) by done.
  assert (Hall : Forall (λ p, contains "=" p.1 = false
                              ∧ contains ";" p.1 = false
                              ∧ contains ";" p.2 = false) pairs)
    by (repeat constructor).
  split; [done|]. split; [reflexivity|].
  exact (proj1 (change_to_new_cookies_well_formed pairs w Hne Hall)).
Defined.

End WebClient.
